(** * ESASky client (astroquery/esasky/core.py): a shallow embedding

    The module is a thin client: it resolves mission names against two
    registry documents, builds ADQL strings, sends them to a TAP endpoint,
    parses the answer and downloads data products.

    Modelling choices, all visible in the definitions below:
    - Python [str] is [string], the UTF-8 bytes of the text. On a string of
      ASCII characters [str.lower()] maps A-Z to a-z, [str.upper()] maps a-z
      to A-Z, and nothing else changes: these are [lower] and [upper]. On
      any other string they follow the Unicode tables of the Python
      runtime, which can change the length ([upper] of a sharp s is SS);
      that part is a collaborator, the record [Unicode]. [str_lower] and
      [str_upper] put
      the two together and stand for the two methods wherever the source
      compares two names or makes a dictionary key. Where the source
      compares a lower-cased string with one of the ASCII literals of the
      module (all, integral, herschel, a header name), or looks for hspire
      or hpacs in it, [lower] is used: no character outside ASCII
      lower-cases to letters of these words alone, so the test has the same
      outcome.
    - A raised exception is a value of [PyExc]; a call returns [result].
    - Methods that read or write [self] or the file system are computations
      in a state-and-error monad [M St A := St -> result A * St]; the state
      survives a raise, as attribute writes do in Python.
    - The HTTP transport, the coordinate and unit parsers, the VOTABLE
      decoder and the float formatter are collaborators outside the module;
      they are the fields of [Services]. Each is a function of its
      arguments: during one call the remote documents do not change.
    - Floats are binary64 ([PrimFloat]), so [raHours * 15.0] is the product
      Python computes; only its rendering by ["%f"] is a collaborator.
    - A registry entry (a JSON object of the observations or catalogs
      document) is the record [MissionJson]; the documents are taken to
      carry the keys that the module reads.
    - The state of the file system is a set of paths. What [os.path.exists]
      and [os.makedirs] answer on it depends on more than the module sees
      (kinds of files, permissions, the reading of [..]), so both are
      collaborators, fields of [Services]. Extracting an archive member,
      renaming it, writing and opening a file are taken to succeed and are
      recorded as updates of the set. *)

From Stdlib Require Import Ascii String PrimFloat.
From stdpp Require Import gmap strings list fin_maps pretty.

(** ** Exceptions and results *)

Inductive ExcClass :=
  | ValueError
  | IndexError
  | AttributeError
  | FileExistsError
  | TableParseError
  | CollaboratorError.

(** An HTTP response, as far as the client looks at it. *)
Record Response := {
  content : string
}.

(** An exception object: its class, its [args], and the [__context__] that
    Python attaches when the raise happens inside an [except] block. The
    objects that can sit in [args] are strings, responses and exceptions. *)
#[warnings="-register-all"]
Inductive PyExc :=
  | Exc (cls : ExcClass) (args : list PyObj) (context : option PyExc)
with PyObj :=
  | ObjStr (s : string)
  | ObjResponse (r : Response)
  | ObjExc (e : PyExc).

Definition exc_class (e : PyExc) : ExcClass :=
  match e with Exc c _ _ => c end.
Definition exc_args (e : PyExc) : list PyObj :=
  match e with Exc _ a _ => a end.
Definition exc_context (e : PyExc) : option PyExc :=
  match e with Exc _ _ c => c end.

Inductive result (A : Type) :=
  | Ok (a : A)
  | Err (e : PyExc).
Arguments Ok {A} a.
Arguments Err {A} e.

Definition raise {A} (cls : ExcClass) (msg : string) : result A :=
  Err (Exc cls [ObjStr msg] None).

Definition rbind {A B} (r : result A) (k : A -> result B) : result B :=
  match r with
  | Ok a => k a
  | Err e => Err e
  end.

(** ** State and error monad *)

Definition M (St A : Type) : Type := St -> result A * St.

Definition ret {St A} (a : A) : M St A := fun st => (Ok a, st).
Definition throw {St A} (e : PyExc) : M St A := fun st => (Err e, st).
Definition bind {St A B} (m : M St A) (k : A -> M St B) : M St B :=
  fun st => match m st with
            | (Ok a, st') => k a st'
            | (Err e, st') => (Err e, st')
            end.
Definition lift {St A} (r : result A) : M St A := fun st => (r, st).
Definition get_state {St} : M St St := fun st => (Ok st, st).
Definition put_state {St} (st : St) : M St unit := fun _ => (Ok tt, st).

Notation "x <- c1 ;; c2" := (bind c1 (fun x => c2))
  (at level 60, c1 at next level, right associativity).
Notation "c1 ;;; c2" := (bind c1 (fun _ => c2))
  (at level 60, right associativity).

(** [for x in xs: acc = body acc x], stopping at the first raise. *)
Fixpoint for_each {St A B} (xs : list A) (acc : B) (body : B -> A -> M St B)
  : M St B :=
  match xs with
  | [] => ret acc
  | x :: xs' => acc' <- body acc x ;; for_each xs' acc' body
  end.

(** ** Python string operations *)

Definition ascii_lower (c : ascii) : ascii :=
  let n := nat_of_ascii c in
  if (65 <=? n)%nat && (n <=? 90)%nat then ascii_of_nat (n + 32) else c.

Definition ascii_upper (c : ascii) : ascii :=
  let n := nat_of_ascii c in
  if (97 <=? n)%nat && (n <=? 122)%nat then ascii_of_nat (n - 32) else c.

Fixpoint str_map (f : ascii -> ascii) (s : string) : string :=
  match s with
  | EmptyString => EmptyString
  | String c s' => String (f c) (str_map f s')
  end.

(** [s.lower()] and [s.upper()] for a string of ASCII characters. *)
Definition lower : string -> string := str_map ascii_lower.
Definition upper : string -> string := str_map ascii_upper.

Fixpoint is_ascii (s : string) : bool :=
  match s with
  | EmptyString => true
  | String c s' => (nat_of_ascii c <? 128)%nat && is_ascii s'
  end.

(** The case mappings of the Python runtime on a string that has a
    character outside ASCII. *)
Record Unicode := {
  unicode_lower : string -> string;
  unicode_upper : string -> string
}.

(** [s.lower()] and [s.upper()] for any string. *)
Definition str_lower (py : Unicode) (s : string) : string :=
  if is_ascii s then lower s else unicode_lower py s.
Definition str_upper (py : Unicode) (s : string) : string :=
  if is_ascii s then upper s else unicode_upper py s.

(** [s.index(sub, start)] *)
Definition str_index (s sub : string) (start : nat) : result nat :=
  match String.index start sub s with
  | Some i => Ok i
  | None => raise ValueError "substring not found"
  end.

(** [sub in s] *)
Definition str_contains (sub s : string) : bool :=
  match String.index 0 sub s with
  | Some _ => true
  | None => false
  end.

(** [s[i]] for a non-negative [i] *)
Definition str_getitem (s : string) (i : nat) : result ascii :=
  match String.get i s with
  | Some c => Ok c
  | None => raise IndexError "string index out of range"
  end.

(** [s[a:b]] and [s[a:]] for non-negative bounds *)
Definition str_slice (s : string) (a b : nat) : string :=
  String.substring a (b - a) s.
Definition str_slice_from (s : string) (a : nat) : string :=
  String.substring a (String.length s - a) s.

(** The double quote character. *)
Definition dquote : ascii := ascii_of_nat 34.

(** ** Class constants *)

Definition FITS_STRING := ".fits".
Definition FTZ_STRING := ".FTZ".
Definition TAR_STRING := ".tar".
Definition ALL_STRING := "all".
Definition CATALOGS_STRING := "catalogs".
Definition OBSERVATIONS_STRING := "observations".
(** Also the default of [download_folder] in [get_maps] and [get_images]. *)
Definition MAPS_STRING := "Maps".
Definition ZERO_ARCMIN_STRING := "0 arcmin".
Definition HERSCHEL_STRING := "herschel".

(** ** Downloader: file names and directories *)

(** [headers.get(name)]: the first header whose name matches, compared
    without regard to case; [None] when there is none. *)
Fixpoint headers_get (headers : list (string * string)) (name : string)
  : option string :=
  match headers with
  | [] => None
  | (k, v) :: rest =>
      if String.eqb (lower k) (lower name) then Some v
      else headers_get rest name
  end.

Definition suffix_slice (cd : string) (start_index : nat) (suffix : string)
  : result string :=
  rbind (str_index cd suffix (start_index + 1)) (fun i =>
  let end_index := i + String.length suffix in
  Ok (str_slice cd start_index end_index)).

Definition _extract_file_name_from_response_header
    (headers : list (string * string)) : result string :=
  match headers_get headers "Content-Disposition" with
  | None => raise AttributeError "'NoneType' object has no attribute 'index'"
  | Some content_disposition =>
      let filename_string := "filename=" in
      rbind (str_index content_disposition filename_string 0) (fun i =>
      let start_index := i + String.length filename_string in
      rbind (str_getitem content_disposition start_index) (fun c =>
      let start_index :=
        if Ascii.eqb c dquote then start_index + 1 else start_index in
      let rest := str_slice_from content_disposition start_index in
      if str_contains FITS_STRING rest then
        suffix_slice content_disposition start_index FITS_STRING
      else if str_contains FTZ_STRING rest then
        suffix_slice content_disposition start_index FTZ_STRING
      else if str_contains TAR_STRING rest then
        suffix_slice content_disposition start_index TAR_STRING
      else
        raise ValueError
          ("Could not find file name in header. Content disposition: "
             +:+ content_disposition +:+ ".")))
  end.

(** The file system, as far as this module looks at it: a set of paths. *)
Definition FS := gset string.

(** The proper ancestors of a path: every non-empty prefix that stops right
    before a slash. [pre] is the part already read. *)
Fixpoint dir_prefixes (pre s : string) : list string :=
  match s with
  | EmptyString => []
  | String c s' =>
      (if Ascii.eqb c "/" && negb (String.eqb pre EmptyString)
       then [pre] else [])
        ++ dir_prefixes (pre +:+ String c EmptyString) s'
  end.

(** ** Data model *)

(** One entry of a registry entry's [metadata] array. *)
Record MetadataJson := {
  label : string;
  tapName : string
}.

(** One entry of the observations or of the catalogs document. *)
Record MissionJson := {
  mission : string;
  tapTable : string;
  isSurveyMission : bool;
  sourceLimit : Z;
  orderBy : string;
  posTapColumn : string;
  metadata : list MetadataJson
}.

(** An astropy table, as far as the client looks at it: [len] is the number
    of rows. *)
Record Table := {
  colnames : list string;
  rows : list (list string)
}.

(** The handle [fits.open] returns, identified by the path it was opened on. *)
Record HDUList := {
  hdu_path : string
}.

Record TarInfo := {
  name : string
}.

(** What a per-mission query yields: a table, or the request payload when
    only the payload is asked for. *)
Inductive MissionResult :=
  | MTable (t : Table)
  | MPayload (p : gmap string string).

(** Python's [len] on either. *)
Definition py_len (r : MissionResult) : nat :=
  match r with
  | MTable t => length (rows t)
  | MPayload p => size p
  end.

(** What the public query methods return. *)
Inductive PyValue :=
  | PyNone
  | PyDict (q : gmap string MissionResult)
  | PyTableList (q : gmap string MissionResult).

(** The arguments of the public methods, by the [isinstance] tests the
    sanitizers make. *)
Inductive PositionArg (Coord : Type) :=
  | PosStr (s : string)
  | PosCoord (c : Coord)
  | PosOther.
Arguments PosStr {Coord} s.
Arguments PosCoord {Coord} c.
Arguments PosOther {Coord}.

Inductive RadiusArg (Quantity : Type) :=
  | RadStr (s : string)
  | RadQuantity (q : Quantity)
  | RadOther.
Arguments RadStr {Quantity} s.
Arguments RadQuantity {Quantity} q.
Arguments RadOther {Quantity}.

Inductive SelectorArg :=
  | SelList (l : list string)
  | SelStr (s : string)
  | SelOther.

(** The state of the client object: the two attributes that
    [_parse_xml_table] writes. *)
Record Client := {
  self_response : option Response;
  self_table_parse_error : option PyExc
}.

(** ** Collaborators *)

Record Services (Coord Quantity : Type) := {
  (** [conf.urlBase] and [conf.timeout] *)
  URLbase : string;
  TIMEOUT : Z;
  (** [urlopen(url)], [json.loads] and the subscript by the top-level key *)
  fetch_json : string -> string -> result (list MissionJson);
  (** [commons.parse_coordinates] *)
  parse_coordinates : PositionArg Coord -> result Coord;
  (** [commons.coord_to_radec]: right ascension in hours, declination in
      degrees *)
  coord_to_radec : Coord -> result (float * float);
  (** [commons.radius_to_unit(radius, unit='deg')] *)
  radius_to_unit_deg : RadiusArg Quantity -> result float;
  (** the conversion ["%f" % x] *)
  format_f : float -> string;
  (** [BaseQuery._request('GET', url, params, timeout, cache)] *)
  request_get : string -> gmap string string -> Z -> bool -> result Response;
  (** [votable.parse], [get_first_table] and [to_table] on the body *)
  votable_to_table : string -> result Table;
  (** [urlopen(url)] read into a scratch file, [tarfile.open] and
      [getmembers] *)
  open_tar : string -> result (list TarInfo);
  (** [os.path.abspath] *)
  os_path_abspath : string -> string;
  (** [os.path.exists(path)] on a file system *)
  os_path_exists : string -> FS -> bool;
  (** [os.makedirs(path)]: its outcome and the file system it leaves *)
  os_makedirs : string -> M FS unit
}.
Arguments URLbase {Coord Quantity} s.
Arguments TIMEOUT {Coord Quantity} s.
Arguments fetch_json {Coord Quantity} s.
Arguments parse_coordinates {Coord Quantity} s.
Arguments coord_to_radec {Coord Quantity} s.
Arguments radius_to_unit_deg {Coord Quantity} s.
Arguments format_f {Coord Quantity} s.
Arguments request_get {Coord Quantity} s.
Arguments votable_to_table {Coord Quantity} s.
Arguments open_tar {Coord Quantity} s.
Arguments os_path_abspath {Coord Quantity} s.
Arguments os_path_exists {Coord Quantity} s.
Arguments os_makedirs {Coord Quantity} s.

(** [os.path.join] of two components *)
Definition os_path_join (a b : string) : string :=
  if String.prefix "/" b then b
  else if String.eqb a EmptyString then b
  else if String.eqb (str_slice_from a (String.length a - 1)) "/" then a +:+ b
  else a +:+ "/" +:+ b.

(** [tar.extract(member, path)]: the member appears under [path], with the
    directories leading to it. *)
Definition tar_extract (member : TarInfo) (path : string) : M FS unit :=
  fun fs =>
    let target := os_path_join path (name member) in
    (Ok tt, fs ∪ {[target]} ∪ list_to_set (dir_prefixes EmptyString target)).

(** [os.renames(old, new)] on the set of paths; it is called on a member
    that has just been extracted. *)
Definition os_renames (old new : string) : M FS unit :=
  fun fs =>
    (Ok tt, (fs ∖ {[old]}) ∪ {[new]}
              ∪ list_to_set (dir_prefixes EmptyString new)).

(** [fits.open(path)] *)
Definition fits_open (path : string) : HDUList := {| hdu_path := path |}.

(** [xs[i]] on a list, for a non-negative [i] *)
Definition list_getitem {A} (xs : list A) (i : nat) : result A :=
  match xs !! i with
  | Some x => Ok x
  | None => raise IndexError "list index out of range"
  end.

(** ** The client *)

Section ESASkyClass.
Context {Coord Quantity : Type}.
Variable py : Unicode.
Variable svc : Services Coord Quantity.

(** *** Registry *)

Definition _fetch_and_parse_json {St} (object_name : string)
  : M St (list MissionJson) :=
  let url := URLbase svc +:+ "/" +:+ object_name in
  lift (fetch_json svc url object_name).

Definition _get_observation_json {St} : M St (list MissionJson) :=
  _fetch_and_parse_json OBSERVATIONS_STRING.

Definition _get_catalogs_json {St} : M St (list MissionJson) :=
  _fetch_and_parse_json CATALOGS_STRING.

(** The loop appends [json[i][field_name]] for every index. *)
Definition _json_object_field_to_list {A}
    (json : list MissionJson) (field : MissionJson -> A) : list A :=
  foldl (fun response_list i =>
           match json !! i with
           | Some entry => response_list ++ [field entry]
           | None => response_list
           end) [] (seq 0 (length json)).

Definition list_maps {St} : M St (list string) :=
  json <- _get_observation_json ;;
  ret (_json_object_field_to_list json mission).

Definition list_catalogs {St} : M St (list string) :=
  json <- _get_catalogs_json ;;
  ret (_json_object_field_to_list json mission).

Fixpoint _find_mission_tap_table_name_from
    (json : list MissionJson) (mission_name : string) : option string :=
  match json with
  | [] => None
  | entry :: rest =>
      if String.eqb (str_lower py (mission entry)) (str_lower py mission_name)
      then Some (tapTable entry)
      else _find_mission_tap_table_name_from rest mission_name
  end.

Definition _find_mission_tap_table_name
    (json : list MissionJson) (mission_name : string) : result string :=
  match _find_mission_tap_table_name_from json mission_name with
  | Some t => Ok t
  | None => raise ValueError ("Input " +:+ mission_name +:+ " not available.")
  end.

Fixpoint _find_mission_parameters_from
    (mission_tap_name : string) (json : list MissionJson)
  : option MissionJson :=
  match json with
  | [] => None
  | entry :: rest =>
      if String.eqb (tapTable entry) mission_tap_name
      then Some entry
      else _find_mission_parameters_from mission_tap_name rest
  end.

Definition _find_mission_parameters_in_json
    (mission_tap_name : string) (json : list MissionJson)
  : result MissionJson :=
  match _find_mission_parameters_from mission_tap_name json with
  | Some entry => Ok entry
  | None =>
      raise ValueError
        ("Input tap name " +:+ mission_tap_name +:+ " not available.")
  end.

Definition _find_observation_tap_table_name {St} (mission_name : string)
  : M St string :=
  json <- _fetch_and_parse_json OBSERVATIONS_STRING ;;
  lift (_find_mission_tap_table_name json mission_name).

Definition _find_catalog_tap_table_name {St} (mission_name : string)
  : M St string :=
  json <- _fetch_and_parse_json CATALOGS_STRING ;;
  lift (_find_mission_tap_table_name json mission_name).

Definition _find_observation_parameters {St} (mission_name : string)
  : M St MissionJson :=
  json <- _get_observation_json ;;
  lift (_find_mission_parameters_in_json mission_name json).

Definition _find_catalog_parameters {St} (catalog_name : string)
  : M St MissionJson :=
  json <- _get_catalogs_json ;;
  lift (_find_mission_parameters_in_json catalog_name json).

(** *** Input sanitizers *)

Definition _sanatize_input_position (position : PositionArg Coord)
  : result (PositionArg Coord) :=
  match position with
  | PosStr _ | PosCoord _ => Ok position
  | PosOther =>
      raise ValueError
        "Position must be either a string or astropy.coordinates"
  end.

Definition _sanatize_input_radius (radius : RadiusArg Quantity)
  : result (RadiusArg Quantity) :=
  match radius with
  | RadStr _ | RadQuantity _ => Ok radius
  | RadOther =>
      raise ValueError
        "Radius must be either a string or astropy.units.Quantity"
  end.

Definition _sanatize_input_mission {St} (missions : SelectorArg)
  : M St (list string) :=
  match missions with
  | SelList l => ret l
  | SelStr s =>
      if String.eqb (lower s) ALL_STRING then list_maps else ret [s]
  | SelOther =>
      lift (raise ValueError
              "Mission must be either a string or a list of missions")
  end.

Definition _sanatize_input_catalogs {St} (catalogs : SelectorArg)
  : M St (list string) :=
  match catalogs with
  | SelList l => ret l
  | SelStr s =>
      if String.eqb (lower s) ALL_STRING then list_maps else ret [s]
  | SelOther =>
      lift (raise ValueError
              "Catalog must be either a string or a list of catalogs")
  end.

(** *** Query builder *)

(** The loop over [range(len(metadata))]: a comma after every name but the
    last. *)
Definition metadata_tap_names_of (metadata : list MetadataJson) : string :=
  foldl (fun metadata_tap_names i =>
           match metadata !! i with
           | Some entry =>
               if (i <? length metadata - 1)%nat
               then metadata_tap_names +:+ " " +:+ tapName entry +:+ ","
               else metadata_tap_names +:+ " " +:+ tapName entry
           | None => metadata_tap_names
           end) EmptyString (seq 0 (length metadata)).

Definition _build_observation_query
    (coordinates : Coord) (radius : RadiusArg Quantity) (json : MissionJson)
  : result string :=
  rbind (coord_to_radec svc coordinates) (fun '(raHours, dec) =>
  let ra := (raHours * 15)%float in
  rbind (radius_to_unit_deg svc radius) (fun radiusDeg =>
  let select_query := "SELECT DISTINCT" in
  let metadata_tap_names := metadata_tap_names_of (metadata json) in
  let from_query := " FROM " +:+ tapTable json in
  let where_query :=
    if isSurveyMission json
    then " WHERE 1=CONTAINS(pos,"
    else " WHERE 1=CONTAINS(fov," in
  let region_query :=
    " CIRCLE('ICRS', " +:+ format_f svc ra +:+ ", " +:+ format_f svc dec
      +:+ ", " +:+ format_f svc radiusDeg +:+ "));" in
  Ok (select_query +:+ metadata_tap_names +:+ from_query +:+ where_query
        +:+ region_query))).

Definition _build_catalog_query
    (coordinates : Coord) (radius : RadiusArg Quantity) (json : MissionJson)
  : result string :=
  rbind (coord_to_radec svc coordinates) (fun '(raHours, dec) =>
  let ra := (raHours * 15)%float in
  rbind (radius_to_unit_deg svc radius) (fun radiusDeg =>
  let select_query := "SELECT TOP " +:+ pretty (sourceLimit json) +:+ " " in
  let metadata_tap_names := metadata_tap_names_of (metadata json) in
  let from_query := " FROM " +:+ tapTable json in
  let where_query :=
    " WHERE 1=CONTAINS(" +:+ posTapColumn json +:+ ", CIRCLE('ICRS', "
      +:+ format_f svc ra +:+ ", " +:+ format_f svc dec +:+ ", "
      +:+ format_f svc radiusDeg +:+ "))" in
  let order_by_query := " ORDER BY " +:+ orderBy json +:+ ";" in
  Ok (select_query +:+ metadata_tap_names +:+ from_query +:+ where_query
        +:+ order_by_query))).

(** *** Executor and parser *)

Definition _create_request_payload (query : string) : gmap string string :=
  <["REQUEST" := "doQuery"]>
    (<["LANG" := "ADQL"]>
       (<["FORMAT" := "VOTABLE"]> (<["QUERY" := query]> ∅))).

Definition _send_get_request {St}
    (url_extension : string) (request_payload : gmap string string)
    (cache : bool) : M St Response :=
  let URL := URLbase svc +:+ url_extension in
  lift (request_get svc URL request_payload (TIMEOUT svc) cache).

Definition table_parse_message : string :=
  "Failed to parse ESASky VOTABLE result! The raw response can be "
    +:+ "found in self.response, and the error in "
    +:+ "self.table_parse_error.".

(** The [except] branch stores the response and the exception on the
    client and raises [TableParseError] with the message alone; the raise
    happens while [ex] is being handled, so [ex] becomes its context. *)
Definition _parse_xml_table (response : Response) : M Client Table :=
  match votable_to_table svc (content response) with
  | Ok table => ret table
  | Err ex =>
      self <- get_state ;;
      put_state {| self_response := Some response;
                   self_table_parse_error := self_table_parse_error self |}
      ;;;
      self <- get_state ;;
      put_state {| self_response := self_response self;
                   self_table_parse_error := Some ex |} ;;;
      throw (Exc TableParseError [ObjStr table_parse_message] (Some ex))
  end.

Definition _get_and_parse_from_tap
    (request_payload : gmap string string) (cache : bool) : M Client Table :=
  response <- _send_get_request "/tap/sync" request_payload cache ;;
  _parse_xml_table response.

Definition _query_region_maps
    (coordinates : Coord) (radius : RadiusArg Quantity)
    (observation_name : string) (get_query_payload : bool)
  : M Client MissionResult :=
  observation_tap_name <- _find_observation_tap_table_name observation_name ;;
  json <- _find_observation_parameters observation_tap_name ;;
  query <- lift (_build_observation_query coordinates radius json) ;;
  let request_payload := _create_request_payload query in
  if get_query_payload then ret (MPayload request_payload)
  else
    table <- _get_and_parse_from_tap request_payload true ;;
    ret (MTable table).

Definition _query_region_catalog
    (coordinates : Coord) (radius : RadiusArg Quantity)
    (catalog_name : string) (get_query_payload : bool)
  : M Client MissionResult :=
  catalog_tap_name <- _find_catalog_tap_table_name catalog_name ;;
  json <- _find_catalog_parameters catalog_tap_name ;;
  query <- lift (_build_catalog_query coordinates radius json) ;;
  let request_payload := _create_request_payload query in
  if get_query_payload then ret (MPayload request_payload)
  else
    table <- _get_and_parse_from_tap request_payload true ;;
    ret (MTable table).

(** *** Storing the per-mission results *)

(** The dictionary [query_result] is updated in place by the source; here
    the updated dictionary is handed back. *)
Definition _store_query_result_maps
    (query_result : gmap string MissionResult) (missions : list string)
    (coordinates : Coord) (radius : RadiusArg Quantity)
    (get_query_payload : bool) : M Client (gmap string MissionResult) :=
  for_each missions query_result (fun query_result mission =>
    mission_table <-
      _query_region_maps coordinates radius mission get_query_payload ;;
    if (0 <? py_len mission_table)%nat
    then ret (<[str_upper py mission := mission_table]> query_result)
    else ret query_result).

Definition _store_query_result_catalogs
    (query_result : gmap string MissionResult) (catalogs : list string)
    (coordinates : Coord) (radius : RadiusArg Quantity)
    (get_query_payload : bool) : M Client (gmap string MissionResult) :=
  for_each catalogs query_result (fun query_result catalog =>
    catalog_table <-
      _query_region_catalog coordinates radius catalog get_query_payload ;;
    if (0 <? py_len catalog_table)%nat
    then ret (<[str_upper py catalog := catalog_table]> query_result)
    else ret query_result).

(** *** Public query methods *)

Definition query_region_maps
    (position : PositionArg Coord) (radius : RadiusArg Quantity)
    (missions : SelectorArg) (get_query_payload : bool)
  : M Client PyValue :=
  sanatized_position <- lift (_sanatize_input_position position) ;;
  sanatized_radius <- lift (_sanatize_input_radius radius) ;;
  sanatized_missions <- _sanatize_input_mission missions ;;
  let query_result : gmap string MissionResult := ∅ in
  coordinates <- lift (parse_coordinates svc sanatized_position) ;;
  query_result <-
    _store_query_result_maps query_result sanatized_missions coordinates
      sanatized_radius get_query_payload ;;
  if get_query_payload then ret (PyDict query_result)
  else ret (PyTableList query_result).

Definition query_region_catalogs
    (position : PositionArg Coord) (radius : RadiusArg Quantity)
    (catalogs : SelectorArg) (get_query_payload : bool)
  : M Client PyValue :=
  sanatized_position <- lift (_sanatize_input_position position) ;;
  sanatized_radius <- lift (_sanatize_input_radius radius) ;;
  sanatized_catalogs <- _sanatize_input_catalogs catalogs ;;
  coordinates <- lift (parse_coordinates svc sanatized_position) ;;
  let query_result : gmap string MissionResult := ∅ in
  query_result <-
    _store_query_result_catalogs query_result sanatized_catalogs coordinates
      sanatized_radius get_query_payload ;;
  if get_query_payload then ret (PyDict query_result)
  else ret (PyTableList query_result).

(** The body is a call statement: the value of the region query is
    dropped and the method falls off its end. *)
Definition query_object_maps
    (position : PositionArg Coord) (missions : SelectorArg)
    (get_query_payload : bool) : M Client PyValue :=
  query_region_maps position (RadStr ZERO_ARCMIN_STRING) missions
    get_query_payload ;;;
  ret PyNone.

Definition query_object_catalogs
    (position : PositionArg Coord) (catalogs : SelectorArg)
    (get_query_payload : bool) : M Client PyValue :=
  query_region_catalogs position (RadStr ZERO_ARCMIN_STRING) catalogs
    get_query_payload ;;;
  ret PyNone.

(** *** Mission directories *)

Definition _create_mission_directory (mission download_folder : string)
  : M FS string :=
  let mission_directory :=
    if String.eqb download_folder MAPS_STRING
    then MAPS_STRING +:+ "/" +:+ mission
    else download_folder +:+ "/" +:+ MAPS_STRING +:+ "/" +:+ mission in
  present <- (fun fs => (Ok (os_path_exists svc mission_directory fs), fs)) ;;
  (if negb present then os_makedirs svc mission_directory else ret tt) ;;;
  ret mission_directory.

(** *** Herschel archives *)

Definition _remove_extra_herschel_directory
    (file_and_directory_name directory_path : string) : M FS string :=
  let full_directory_path := os_path_abspath svc directory_path in
  slash <- lift (str_index file_and_directory_name "/" 0) ;;
  let file_name := str_slice_from file_and_directory_name (slash + 1) in
  os_renames (os_path_join full_directory_path file_and_directory_name)
             (os_path_join full_directory_path file_name) ;;;
  ret file_name.

(** One turn of the loop over [tar.getmembers()]; the accumulator is the
    dictionary [observation] and the counter [i]. *)
Definition herschel_member
    (directory_path : string) (filters : list string)
    (acc : gmap string HDUList * nat) (member : TarInfo)
  : M FS (gmap string HDUList * nat) :=
  let '(observation, i) := acc in
  let member_name := lower (name member) in
  if str_contains "hspire" member_name || str_contains "hpacs" member_name
  then
    tar_extract member directory_path ;;;
    new_name <- _remove_extra_herschel_directory (name member)
                  directory_path ;;
    let opened := fits_open (directory_path +:+ new_name) in
    key <- lift (list_getitem filters i) ;;
    ret (<[key := opened]> observation, i + 1)
  else ret (observation, i).

Definition _get_herschel_observation
    (product_url directory_path : string) (filters : list string)
  : M FS (gmap string HDUList) :=
  members <- lift (open_tar svc product_url) ;;
  final <- for_each members (∅, 0) (herschel_member directory_path filters) ;;
  ret (fst final).

End ESASkyClass.


(** ** A sample deployment

    A small registry and canned collaborators, used to run the client on
    concrete inputs. *)

Definition sample_hst : MissionJson := {|
  mission := "HST";
  tapTable := "observations.mv_hst_fdw";
  isSurveyMission := false;
  sourceLimit := 0;
  orderBy := EmptyString;
  posTapColumn := EmptyString;
  metadata := [ {| label := "Observation"; tapName := "observation_id" |};
                {| label := "URL"; tapName := "product_url" |} ]
|}.

Definition sample_planck : MissionJson := {|
  mission := "Planck";
  tapTable := "observations.mv_planck_fdw";
  isSurveyMission := true;
  sourceLimit := 0;
  orderBy := EmptyString;
  posTapColumn := EmptyString;
  metadata := [ {| label := "Observation"; tapName := "observation_id" |} ]
|}.

Definition sample_gaia : MissionJson := {|
  mission := "Gaia DR1 TGAS";
  tapTable := "catalogues.mv_gaia_tgas_fdw";
  isSurveyMission := false;
  sourceLimit := 2000;
  orderBy := "phot_g_mean_mag";
  posTapColumn := "pos";
  metadata := [ {| label := "Name"; tapName := "name" |};
                {| label := "RA"; tapName := "ra" |};
                {| label := "Dec"; tapName := "dec" |} ]
|}.

Definition sample_fetch_json (url key : string) : result (list MissionJson) :=
  if String.eqb key OBSERVATIONS_STRING then Ok [sample_hst; sample_planck]
  else if String.eqb key CATALOGS_STRING then Ok [sample_gaia]
  else raise CollaboratorError ("HTTP Error 404: " +:+ url).

Definition sample_format_f (x : float) : string :=
  if PrimFloat.eqb x 150 then "150.000000"
  else if PrimFloat.eqb x 0 then "0.000000"
  else "41.500000".

(** The sample TAP endpoint answers with the query itself as body; the
    sample decoder finds two rows for HST, none for Planck, and fails on
    anything else. *)
Definition sample_request_get
    (url : string) (params : gmap string string) (timeout : Z) (cache : bool)
  : result Response :=
  Ok {| content := default EmptyString (params !! "QUERY") |}.

Definition sample_hst_table : Table :=
  {| colnames := ["observation_id"; "product_url"];
     rows := [["o1"; "http://a/o1.fits"]; ["o2"; "http://a/o2.fits"]] |}.

Definition sample_votable_to_table (body : string) : result Table :=
  if str_contains "mv_hst_fdw" body then Ok sample_hst_table
  else if str_contains "mv_planck_fdw" body then
    Ok {| colnames := ["observation_id"]; rows := [] |}
  else raise CollaboratorError "no VOTABLE in the body".

Definition sample_open_tar (url : string) : result (list TarInfo) :=
  if str_contains "flat" url then Ok [ {| name := "hspire.fits" |} ]
  else Ok [ {| name := "1342/README" |};
            {| name := "1342/hspire_psw.fits" |};
            {| name := "1342/hspire_pmw.fits" |} ].

(** Paths are kept relative to the working directory; only a trailing slash
    is dropped. *)
Definition sample_abspath (p : string) : string :=
  if String.eqb (str_slice_from p (String.length p - 1)) "/"
  then str_slice p 0 (String.length p - 1)
  else p.

(** The sample file system answers from the set of paths alone: a path
    exists when it is in the set, and [os.makedirs] adds the leaf and its
    ancestors, or raises when the leaf is there. *)
Definition sample_path_exists (p : string) (fs : FS) : bool :=
  bool_decide (p ∈ fs).

Definition sample_makedirs (p : string) : M FS unit :=
  fun fs =>
    if bool_decide (p ∈ fs) then (raise FileExistsError p, fs)
    else (Ok tt, fs ∪ {[p]} ∪ list_to_set (dir_prefixes EmptyString p)).

Definition sample_svc : Services unit unit := {|
  URLbase := "http://sky.esa.int/esasky-tap";
  TIMEOUT := 1000;
  fetch_json := sample_fetch_json;
  parse_coordinates := fun _ => Ok tt;
  coord_to_radec := fun _ => Ok (10%float, 41.5%float);
  radius_to_unit_deg := fun _ => Ok 0%float;
  format_f := sample_format_f;
  request_get := sample_request_get;
  votable_to_table := sample_votable_to_table;
  open_tar := sample_open_tar;
  os_path_abspath := sample_abspath;
  os_path_exists := sample_path_exists;
  os_makedirs := sample_makedirs
|}.

(** The sharp s, in UTF-8. *)
Definition eszett : string :=
  String (ascii_of_nat 195) (String (ascii_of_nat 159) EmptyString).

(** A sample runtime: of the strings outside ASCII it knows the name Mass
    written with a sharp s, whose upper-case form is MASS. *)
Definition sample_unicode_lower (s : string) : string :=
  if String.eqb s ("Ma" +:+ eszett) then "ma" +:+ eszett else s.

Definition sample_unicode_upper (s : string) : string :=
  if String.eqb s ("Ma" +:+ eszett) then "MASS"
  else if String.eqb s ("ma" +:+ eszett) then "MASS"
  else s.

Definition sample_py : Unicode := {|
  unicode_lower := sample_unicode_lower;
  unicode_upper := sample_unicode_upper
|}.

(** A registry with the missions MASS and Mass (with a sharp s): the sample
    decoder finds no row for the first and two rows for the second. *)
Definition sample_mass : MissionJson := {|
  mission := "MASS";
  tapTable := "observations.mv_mass_fdw";
  isSurveyMission := true;
  sourceLimit := 0;
  orderBy := EmptyString;
  posTapColumn := EmptyString;
  metadata := [ {| label := "Observation"; tapName := "observation_id" |} ]
|}.

Definition sample_masz : MissionJson := {|
  mission := "Ma" +:+ eszett;
  tapTable := "observations.mv_masz_fdw";
  isSurveyMission := true;
  sourceLimit := 0;
  orderBy := EmptyString;
  posTapColumn := EmptyString;
  metadata := [ {| label := "Observation"; tapName := "observation_id" |} ]
|}.

Definition sample_masz_table : Table :=
  {| colnames := ["observation_id"]; rows := [["m1"]; ["m2"]] |}.

Definition sample_masz_svc : Services unit unit := {|
  URLbase := URLbase sample_svc;
  TIMEOUT := TIMEOUT sample_svc;
  fetch_json := fun _ _ => Ok [sample_mass; sample_masz];
  parse_coordinates := fun _ => Ok tt;
  coord_to_radec := fun _ => Ok (10%float, 41.5%float);
  radius_to_unit_deg := fun _ => Ok 0%float;
  format_f := sample_format_f;
  request_get := sample_request_get;
  votable_to_table := fun body =>
    if str_contains "mv_masz_fdw" body then Ok sample_masz_table
    else Ok {| colnames := ["observation_id"]; rows := [] |};
  open_tar := sample_open_tar;
  os_path_abspath := sample_abspath;
  os_path_exists := sample_path_exists;
  os_makedirs := sample_makedirs
|}.


(** What the sample region query for HST returns in payload-only mode. *)
Definition sample_hst_payloads : gmap string MissionResult :=
  {[ "HST" :=
       MPayload
         (_create_request_payload
            ("SELECT DISTINCT observation_id, product_url"
               +:+ " FROM observations.mv_hst_fdw"
               +:+ " WHERE 1=CONTAINS(fov, CIRCLE('ICRS', 150.000000,"
               +:+ " 41.500000, 0.000000));")) ]}.

Definition fresh_client : Client :=
  {| self_response := None; self_table_parse_error := None |}.

(** How an exception object can carry another object. *)
Definition carries_response (e : PyExc) (r : Response) : Prop :=
  ObjResponse r ∈ exc_args e.
Definition carries_exception (e ex : PyExc) : Prop :=
  ObjExc ex ∈ exc_args e ∨ exc_context e = Some ex.

(** A response header list with the single header Content-Disposition. *)
Definition header_of (value : string) : list (string * string) :=
  [("Content-Disposition", value)].

(** ** Reading a query string

    The vocabulary in which the properties of the builders are stated: the
    column list as a join, and the words of a query. *)

(** The names in order, each after a blank, with a comma between two
    neighbours and none at the end. *)
Definition comma_joined (names : list string) : string :=
  String.concat "," (map (fun n => " " +:+ n) names).

(** [s.split(sep)] for a one-character separator. *)
Fixpoint split_on (sep : ascii) (s : string) : list string :=
  match s with
  | EmptyString => [EmptyString]
  | String c s' =>
      if Ascii.eqb c sep then EmptyString :: split_on sep s'
      else match split_on sep s' with
           | w :: ws => String c w :: ws
           | [] => [String c EmptyString]
           end
  end.

















(** ** Reading the per-mission query

    The pure part of a per-mission query, up to the request payload: two
    fetches of the registry document of the kind, the two look-ups, the
    query string. *)
Definition mission_payload {Coord Quantity} (py : Unicode)
    (svc : Services Coord Quantity) (kind : string)
    (build : Coord -> RadiusArg Quantity -> MissionJson -> result string)
    (coordinates : Coord) (radius : RadiusArg Quantity) (mission_name : string)
  : result (gmap string string) :=
  rbind (fetch_json svc (URLbase svc +:+ "/" +:+ kind) kind) (fun json1 =>
  rbind (_find_mission_tap_table_name py json1 mission_name) (fun tap_name =>
  rbind (fetch_json svc (URLbase svc +:+ "/" +:+ kind) kind) (fun json2 =>
  rbind (_find_mission_parameters_in_json tap_name json2) (fun entry =>
  rbind (build coordinates radius entry) (fun query =>
  Ok (_create_request_payload query)))))).

(** One turn of the storing loops, for a per-mission query [Q]. *)
Definition store_body (py : Unicode) (Q : string -> M Client MissionResult)
    (query_result : gmap string MissionResult) (mission : string)
  : M Client (gmap string MissionResult) :=
  mission_table <- Q mission ;;
  if (0 <? py_len mission_table)%nat
  then ret (<[str_upper py mission := mission_table]> query_result)
  else ret query_result.

(** A mission name resolves in a registry document when some entry carries
    it, letter case aside. *)
Definition resolves_in (py : Unicode) (json : list MissionJson)
    (mission_name : string) : Prop :=
  exists entry,
    entry ∈ json /\ str_lower py (mission entry) = str_lower py mission_name.

(** The shape shared by the two run equations. *)
Definition query_of {Coord Quantity} (svc : Services Coord Quantity)
    (payload_of : string -> result (gmap string string))
    (get_query_payload : bool) (mission_name : string)
  : M Client MissionResult :=
  fun st =>
    match payload_of mission_name with
    | Err e => (Err e, st)
    | Ok payload =>
        if get_query_payload then (Ok (MPayload payload), st)
        else bind (_get_and_parse_from_tap svc payload true)
               (fun table => ret (MTable table)) st
    end.

(** ** Reading a Herschel archive *)

(** The members the loop keeps. *)
Definition herschel_match (member : TarInfo) : bool :=
  str_contains "hspire" (lower (name member))
  || str_contains "hpacs" (lower (name member)).

(** A member name without its top-level directory. *)
Definition strip_top_directory (member_name : string) : string :=
  match String.index 0 "/" member_name with
  | Some slash => str_slice_from member_name (slash + 1)
  | None => member_name
  end.

(** The data product of a member extracted under [directory_path]. *)
Definition herschel_product (directory_path : string) (member : TarInfo)
  : HDUList :=
  fits_open (directory_path +:+ strip_top_directory (name member)).

(** [for key, value in pairs: d[key] = value], from the dictionary [d]. *)
Definition assign_in_order {V} (d : gmap string V)
    (pairs : list (string * V)) : gmap string V :=
  foldl (fun acc p => <[p.1 := p.2]> acc) d pairs.

(** Every kept member sits under a directory of the archive. *)
Definition under_directory (members : list TarInfo) : Prop :=
  forall member, member ∈ members -> herschel_match member = true ->
    str_contains "/" (name member) = true.

(** ** Downloader: products of a mission

    The rest of the downloader: file names from URLs, the per-mission
    download loop and [get_maps]. What the source prints is kept, as the
    list of chunks written to the standard output. *)

Definition INTEGRAL_STRING := "integral".
Definition PRODUCT_URL_STRING := "product_url".
Definition OBSERVATION_ID_STRING := "observation_id".
Definition FILTER_STRING := "filter".

Definition newline : string := String (ascii_of_nat 10) EmptyString.

(** [s.rindex(sub)] *)
Fixpoint str_rfind (s sub : string) : option nat :=
  match s with
  | EmptyString => if String.eqb sub EmptyString then Some 0 else None
  | String c s' =>
      match str_rfind s' sub with
      | Some i => Some (S i)
      | None => if String.prefix sub s then Some 0 else None
      end
  end.

Definition str_rindex (s sub : string) : result nat :=
  match str_rfind s sub with
  | Some i => Ok i
  | None => raise ValueError "substring not found"
  end.

(** [s.endswith(suffix)] *)
Definition str_endswith (s suffix : string) : bool :=
  (String.length suffix <=? String.length s)%nat
  && String.eqb
       (str_slice_from s (String.length s - String.length suffix)) suffix.

Definition _extract_file_name_from_url (product_url : string)
  : result string :=
  rbind (str_rindex product_url "/") (fun slash =>
  let start_index := slash + 1 in
  Ok (str_slice_from product_url start_index)).

(** Whether the character [c] is absent from [s]. *)
Fixpoint char_free (c : ascii) (s : string) : bool :=
  match s with
  | EmptyString => true
  | String d s' => negb (Ascii.eqb d c) && char_free c s'
  end.

(** A table column by name, as astropy gives it: the cells of the column,
    one per row; a name that is no column raises (astropy's [KeyError]). A
    row is taken to have a cell for every column. *)
Fixpoint column_index (column : string) (names : list string) : option nat :=
  match names with
  | [] => None
  | n :: rest =>
      if String.eqb n column then Some 0
      else option_map S (column_index column rest)
  end.

Definition table_column (t : Table) (column : string) : result (list string) :=
  match column_index column (colnames t) with
  | Some j => Ok (map (fun row => default EmptyString (row !! j)) (rows t))
  | None => raise CollaboratorError ("KeyError: " +:+ column)
  end.

(** The answer of [urlopen] on a product URL: headers and body. *)
Record HttpResponse := {
  response_headers : list (string * string);
  response_body : string
}.

Record Transport := {
  (** [urllib.request.urlopen(url)] *)
  urlopen : string -> result HttpResponse
}.

(** What a download run acts on: the file system and the standard output. *)
Record World := {
  files : FS;
  stdout : list string
}.

Definition on_files {A} (m : M FS A) : M World A :=
  fun w =>
    let '(r, fs) := m (files w) in
    (r, {| files := fs; stdout := stdout w |}).

(** [print(text, end=ending)] *)
Definition print (text ending : string) : M World unit :=
  fun w =>
    (Ok tt, {| files := files w; stdout := stdout w ++ [text +:+ ending] |}).

(** [open(file_name, 'wb')], [write] and [close] *)
Definition write_file (file_name data : string) : M FS unit :=
  fun fs => (Ok tt, fs ∪ {[file_name]}).

(** The value stored for one observation: an opened file, or for Herschel
    the opened files by filter. *)
Inductive Product :=
  | PFile (h : HDUList)
  | PFilters (m : gmap string HDUList).

(** The argument [query_table_list] of [get_maps], by the [isinstance] test:
    a table list is an ordered dictionary of tables. *)
Inductive TableListArg :=
  | TLTables (entries : list (string * Table))
  | TLOther.

(** [table_list[key]] *)
Fixpoint table_list_getitem (entries : list (string * Table)) (key : string)
  : result Table :=
  match entries with
  | [] => raise CollaboratorError ("KeyError: " +:+ key)
  | (k, t) :: rest =>
      if String.eqb k key then Ok t else table_list_getitem rest key
  end.

Definition _sanatize_input_table_list (table_list : TableListArg)
  : result (list (string * Table)) :=
  match table_list with
  | TLTables entries => Ok entries
  | TLOther =>
      raise ValueError "Query_table_list must be an astropy.utils.TableList"
  end.

Section Downloader.
Context {Coord Quantity : Type}.
Variable py : Unicode.
Variable svc : Services Coord Quantity.
Variable net : Transport.

(** The branch of the row loop for a mission other than Herschel. *)
Definition download_single (product_url directory_path : string)
  : M World Product :=
  response <- lift (urlopen net product_url) ;;
  file_name <-
    lift (if str_endswith product_url FITS_STRING
          then rbind (_extract_file_name_from_url product_url)
                 (fun n => Ok (directory_path +:+ n))
          else rbind (_extract_file_name_from_response_header
                        (response_headers response))
                 (fun n => Ok (directory_path +:+ n))) ;;
  let fits_data := response_body response in
  on_files (write_file file_name fits_data) ;;;
  ret (PFile (fits_open file_name)).

(** One turn of the loop over [range(len(maps_table))]. *)
Definition download_row (maps_table : Table)
    (mission mission_directory : string)
    (maps : gmap string Product) (index : nat) : M World (gmap string Product) :=
  urls <- lift (table_column maps_table PRODUCT_URL_STRING) ;;
  product_url <- lift (list_getitem urls index) ;;
  ids <- lift (table_column maps_table OBSERVATION_ID_STRING) ;;
  observation_id <- lift (list_getitem ids index) ;;
  print ("Downloading Observation ID: " +:+ observation_id +:+ " from "
           +:+ product_url) " " ;;;
  let directory_path := mission_directory +:+ "/" in
  entry <-
    (if String.eqb (lower mission) HERSCHEL_STRING
     then
       cells <- lift (table_column maps_table FILTER_STRING) ;;
       cell <- lift (list_getitem cells index) ;;
       let herschel_filter := split_on "," cell in
       observation <-
         on_files (_get_herschel_observation svc product_url directory_path
                     herschel_filter) ;;
       ret (PFilters observation)
     else download_single product_url directory_path) ;;
  print "[Done]" newline ;;;
  ret (<[observation_id := entry]> maps).

Definition _get_maps_for_mission (maps_table : Table)
    (mission download_folder : string) : M World (gmap string Product) :=
  let maps : gmap string Product := ∅ in
  urls <- lift (table_column maps_table PRODUCT_URL_STRING) ;;
  if (0 <? length urls)%nat
  then
    mission_directory <-
      on_files (_create_mission_directory svc mission download_folder) ;;
    print ("Starting download of " +:+ mission +:+ " data. ("
             +:+ pretty (length urls) +:+ " files)") newline ;;;
    maps <- for_each (seq 0 (length (rows maps_table))) maps
              (download_row maps_table mission mission_directory) ;;
    print ("Downloading of " +:+ mission +:+ " data complete.") newline ;;;
    ret maps
  else ret maps.

(** The inner loop of [get_maps] over the selected missions, for one key of
    the table list; both [break]s end it. *)
Fixpoint get_maps_match (entries : list (string * Table))
    (download_folder : string) (missions : list string)
    (maps : gmap string (gmap string Product)) (query_mission : string)
  : M World (gmap string (gmap string Product)) :=
  match missions with
  | [] => ret maps
  | mission :: rest =>
      if String.eqb (lower query_mission) INTEGRAL_STRING then ret maps
      else if String.eqb (str_lower py query_mission) (str_lower py mission)
      then
        table <- lift (table_list_getitem entries query_mission) ;;
        products <- _get_maps_for_mission table query_mission download_folder ;;
        ret (<[query_mission := products]> maps)
      else get_maps_match entries download_folder rest maps query_mission
  end.

Definition get_maps (query_table_list : TableListArg) (missions : SelectorArg)
    (download_folder : string) : M World (gmap string (gmap string Product)) :=
  sanatized_query_table_list <-
    lift (_sanatize_input_table_list query_table_list) ;;
  sanatized_missions <- _sanatize_input_mission svc missions ;;
  let maps : gmap string (gmap string Product) := ∅ in
  maps <- for_each (sanatized_query_table_list.*1) maps
            (get_maps_match sanatized_query_table_list download_folder
               sanatized_missions) ;;
  (if (0 <? length sanatized_query_table_list)%nat
   then print ("Maps available at " +:+ os_path_abspath svc download_folder)
          newline
   else print "No maps found" newline) ;;;
  ret maps.

End Downloader.

(** A sample transport: one product with a name in its URL, one named by its
    Content-Disposition header. *)
Definition sample_urlopen (url : string) : result HttpResponse :=
  if str_endswith url FITS_STRING then
    Ok {| response_headers := []; response_body := "SIMPLE  =" |}
  else if str_contains "download" url then
    Ok {| response_headers :=
            [("Content-Disposition", "attachment; filename=n1.FTZ")];
          response_body := "SIMPLE  =" |}
  else raise CollaboratorError "HTTP Error 404: Not Found".

Definition sample_net : Transport := {| urlopen := sample_urlopen |}.

Definition sample_xmm_table : Table :=
  {| colnames := ["observation_id"; "product_url"];
     rows := [["0001"; "http://a/data/p1.fits"];
              ["0002"; "http://a/download?id=2"]] |}.

Definition fresh_world : World := {| files := ∅; stdout := [] |}.

(** The sample deployment with the TAP endpoint down. *)
Definition sample_offline_svc : Services unit unit := {|
  URLbase := URLbase sample_svc;
  TIMEOUT := 1;
  fetch_json := sample_fetch_json;
  parse_coordinates := fun _ => Ok tt;
  coord_to_radec := fun _ => Ok (10%float, 41.5%float);
  radius_to_unit_deg := fun _ => Ok 0%float;
  format_f := sample_format_f;
  request_get := fun _ _ _ _ => raise CollaboratorError "connection refused";
  votable_to_table := fun _ => raise CollaboratorError "no VOTABLE in the body";
  open_tar := sample_open_tar;
  os_path_abspath := sample_abspath;
  os_path_exists := sample_path_exists;
  os_makedirs := sample_makedirs
|}.


(** The cells of a column, none when the table has no such column. *)
Definition column_cells (t : Table) (column : string) : list string :=
  match table_column t column with
  | Ok cells => cells
  | Err _ => []
  end.

(** Whether [get_maps] downloads for the key [query_mission] of the table
    list: the key is not INTEGRAL and some selected mission has its name,
    letter case aside. *)
Definition selected_key (py : Unicode) (missions : list string)
    (query_mission : string) : bool :=
  negb (String.eqb (lower query_mission) INTEGRAL_STRING)
  && existsb (fun mission =>
                String.eqb (str_lower py query_mission) (str_lower py mission))
       missions.

(** What the sample download of the two XMM-EPIC products returns. *)
Definition sample_xmm_products : gmap string Product :=
  {[ "0001" := PFile {| hdu_path := "Maps/XMM-EPIC/p1.fits" |};
     "0002" := PFile {| hdu_path := "Maps/XMM-EPIC/n1.FTZ" |} ]}.

(** A sample table list: XMM-EPIC and INTEGRAL with two products each, HST
    with its two rows. *)
Definition sample_table_list : list (string * Table) :=
  [("XMM-EPIC", sample_xmm_table); ("INTEGRAL", sample_xmm_table);
   ("HST", sample_hst_table)].

(** The last line [get_maps] prints. *)
Definition get_maps_last_line {Coord Quantity} (svc : Services Coord Quantity)
    (entries : list (string * Table)) (download_folder : string) : string :=
  (if (0 <? length entries)%nat
   then "Maps available at " +:+ os_path_abspath svc download_folder
   else "No maps found") +:+ newline.

(** What the sample download of the two HST products returns. *)
Definition sample_hst_products : gmap string Product :=
  {[ "o1" := PFile {| hdu_path := "Maps/HST/o1.fits" |};
     "o2" := PFile {| hdu_path := "Maps/HST/o2.fits" |} ]}.

(** * Properties *)

(** ** Strings *)

Lemma str_app_cons (x : ascii) (a b : string) :
  String x a +:+ b = String x (a +:+ b).
Proof. reflexivity. Qed.

Lemma str_app_nil_l (a : string) : EmptyString +:+ a = a.
Proof. reflexivity. Qed.

Lemma str_app_assoc (a b c : string) : (a +:+ b) +:+ c = a +:+ (b +:+ c).
Proof.
  induction a as [|x a IH]; [reflexivity|].
  by rewrite !str_app_cons, IH.
Qed.

Lemma str_app_nil_r (a : string) : a +:+ EmptyString = a.
Proof.
  induction a as [|x a IH]; [reflexivity|].
  by rewrite str_app_cons, IH.
Qed.

Lemma ascii_lower_upper (c : ascii) : ascii_lower (ascii_upper c) = ascii_lower c.
Proof. by destruct c as [[] [] [] [] [] [] [] []]. Qed.

Lemma lower_upper (s : string) : lower (upper s) = lower s.
Proof.
  induction s as [|c s IH]; simpl; [reflexivity|].
  unfold lower, upper in *. simpl. by rewrite ascii_lower_upper, IH.
Qed.

(** ASCII strings with the same upper-case form have the same lower-case
    form. *)
Lemma upper_eq_lower_eq (a b : string) : upper a = upper b -> lower a = lower b.
Proof. intros H. by rewrite <- (lower_upper a), <- (lower_upper b), H. Qed.

Lemma ascii_upper_range (c : ascii) :
  (nat_of_ascii (ascii_upper c) <? 128)%nat = (nat_of_ascii c <? 128)%nat.
Proof. by destruct c as [[] [] [] [] [] [] [] []]. Qed.

Lemma is_ascii_upper (s : string) : is_ascii (upper s) = is_ascii s.
Proof.
  induction s as [|c s IH]; [reflexivity|].
  unfold upper in *. simpl. by rewrite ascii_upper_range, IH.
Qed.

(** On an ASCII string, lower-casing the upper-cased string gives the
    lower-cased string. *)
Lemma str_lower_upper (py : Unicode) (s : string) :
  is_ascii s = true -> str_lower py (str_upper py s) = str_lower py s.
Proof.
  intros Hs. unfold str_lower, str_upper. rewrite Hs, is_ascii_upper, Hs.
  apply lower_upper.
Qed.

Lemma ascii_same_upper_same_lower (py : Unicode) (a b : string) :
  is_ascii a = true -> is_ascii b = true ->
  str_upper py a = str_upper py b -> str_lower py a = str_lower py b.
Proof.
  intros Ha Hb. unfold str_lower, str_upper. rewrite Ha, Hb.
  apply upper_eq_lower_eq.
Qed.

(** ** The monad *)

Lemma bind_ok {St A B} (m : M St A) (k : A -> M St B) st a st' :
  m st = (Ok a, st') -> bind m k st = k a st'.
Proof. intros H. unfold bind. by rewrite H. Qed.

Lemma bind_err {St A B} (m : M St A) (k : A -> M St B) st e st' :
  m st = (Err e, st') -> bind m k st = (Err e, st').
Proof. intros H. unfold bind. by rewrite H. Qed.

Lemma bind_ok_inv {St A B} (m : M St A) (k : A -> M St B) st b st2 :
  bind m k st = (Ok b, st2) ->
  exists a st1, m st = (Ok a, st1) /\ k a st1 = (Ok b, st2).
Proof.
  unfold bind. destruct (m st) as [[a|e] st1]; intros H; [eauto | discriminate].
Qed.

(** ** Object queries drop the value of the region query *)

Lemma query_region_maps_value {Coord Quantity} (py : Unicode)
    (svc : Services Coord Quantity)
    position radius missions get_query_payload st v st' :
  query_region_maps py svc position radius missions get_query_payload st
    = (Ok v, st') ->
  v <> PyNone.
Proof.
  unfold query_region_maps. intros H.
  repeat (apply bind_ok_inv in H as (? & ? & _ & H)).
  destruct get_query_payload; inversion H; discriminate.
Qed.

Lemma query_region_catalogs_value {Coord Quantity} (py : Unicode)
    (svc : Services Coord Quantity)
    position radius catalogs get_query_payload st v st' :
  query_region_catalogs py svc position radius catalogs get_query_payload st
    = (Ok v, st') ->
  v <> PyNone.
Proof.
  unfold query_region_catalogs. intros H.
  repeat (apply bind_ok_inv in H as (? & ? & _ & H)).
  destruct get_query_payload; inversion H; discriminate.
Qed.

(** C1. Whenever the region query with the radius "0 arcmin" returns a value
    [v] (a dictionary of payloads or a table list, never [None]), the object
    query on the same position, selector and payload flag returns [None]:
    the value is computed and then dropped. This holds for maps and for
    catalogs, so the object queries do not return what the region queries
    return. *)
Theorem query_object_returns_none {Coord Quantity} (py : Unicode)
    (svc : Services Coord Quantity) position selector get_query_payload st :
  (forall v st',
     query_region_maps py svc position (RadStr ZERO_ARCMIN_STRING) selector
       get_query_payload st = (Ok v, st') ->
     query_object_maps py svc position selector get_query_payload st
       = (Ok PyNone, st') /\ v <> PyNone) /\
  (forall v st',
     query_region_catalogs py svc position (RadStr ZERO_ARCMIN_STRING) selector
       get_query_payload st = (Ok v, st') ->
     query_object_catalogs py svc position selector get_query_payload st
       = (Ok PyNone, st') /\ v <> PyNone).
Proof.
  split; intros v st' H.
  - split; [|by eapply query_region_maps_value].
    unfold query_object_maps. by rewrite (bind_ok _ _ _ _ _ H).
  - split; [|by eapply query_region_catalogs_value].
    unfold query_object_catalogs. by rewrite (bind_ok _ _ _ _ _ H).
Qed.

(** On the sample deployment the region query for HST in payload-only mode
    returns a one-entry dictionary and the object query returns [None]. *)
Lemma query_object_returns_none_witness :
  query_region_maps sample_py sample_svc (PosStr "m101")
    (RadStr ZERO_ARCMIN_STRING) (SelStr "HST") true fresh_client
  = (Ok (PyDict sample_hst_payloads), fresh_client) /\
  query_object_maps sample_py sample_svc (PosStr "m101") (SelStr "HST") true
    fresh_client
  = (Ok PyNone, fresh_client).
Proof.
  assert (query_region_maps sample_py sample_svc (PosStr "m101")
            (RadStr ZERO_ARCMIN_STRING) (SelStr "HST") true fresh_client
          = (Ok (PyDict sample_hst_payloads), fresh_client)) as Hregion
    by (vm_compute; reflexivity).
  split; [exact Hregion|].
  exact (proj1 (proj1 (query_object_returns_none sample_py sample_svc
                         (PosStr "m101") (SelStr "HST") true fresh_client)
                  _ _ Hregion)).
Defined.

(** ** Selectors *)

Lemma field_loop_from {A} (field : MissionJson -> A)
    (done todo : list MissionJson) (acc : list A) :
  foldl (fun response_list i =>
           match (done ++ todo) !! i with
           | Some entry => response_list ++ [field entry]
           | None => response_list
           end) acc (seq (length done) (length todo))
  = acc ++ map field todo.
Proof.
  revert done acc. induction todo as [|x todo IH]; intros done acc; simpl.
  - by rewrite app_nil_r.
  - rewrite list_lookup_middle by reflexivity.
    replace (done ++ x :: todo) with ((done ++ [x]) ++ todo)
      by (by rewrite <- app_assoc).
    replace (S (length done)) with (length (done ++ [x]))
      by (rewrite length_app; simpl; lia).
    rewrite IH. by rewrite <- app_assoc.
Qed.

(** The index loop of [_json_object_field_to_list] collects the field of
    every entry, in order. *)
Lemma json_object_field_to_list_map {A} (json : list MissionJson)
    (field : MissionJson -> A) :
  _json_object_field_to_list json field = map field json.
Proof. apply (field_loop_from field [] json []). Qed.

Lemma list_maps_run {Coord Quantity} (svc : Services Coord Quantity)
    {St} (st : St) :
  list_maps svc st
  = (rbind (fetch_json svc (URLbase svc +:+ "/" +:+ OBSERVATIONS_STRING)
              OBSERVATIONS_STRING)
       (fun json => Ok (map mission json)), st).
Proof.
  unfold list_maps, _get_observation_json, _fetch_and_parse_json, bind, lift,
    ret.
  destruct (fetch_json svc _ _); simpl; [|reflexivity].
  by rewrite json_object_field_to_list_map.
Qed.

Lemma list_catalogs_run {Coord Quantity} (svc : Services Coord Quantity)
    {St} (st : St) :
  list_catalogs svc st
  = (rbind (fetch_json svc (URLbase svc +:+ "/" +:+ CATALOGS_STRING)
              CATALOGS_STRING)
       (fun json => Ok (map mission json)), st).
Proof.
  unfold list_catalogs, _get_catalogs_json, _fetch_and_parse_json, bind, lift,
    ret.
  destruct (fetch_json svc _ _); simpl; [|reflexivity].
  by rewrite json_object_field_to_list_map.
Qed.

(** The parts of the selector rule that the catalog sanitizer does follow:
    a list is returned as it is, a string other than "all" becomes a
    singleton, anything else raises [ValueError]. *)
Lemma sanatize_input_catalogs_plain {Coord Quantity}
    (svc : Services Coord Quantity) (st : Client) :
  (forall l, _sanatize_input_catalogs svc (SelList l) st = (Ok l, st)) /\
  (forall s, lower s <> ALL_STRING ->
     _sanatize_input_catalogs svc (SelStr s) st = (Ok [s], st)) /\
  (exists e, _sanatize_input_catalogs svc SelOther st = (Err e, st)
             /\ exc_class e = ValueError).
Proof.
  split; [done|]. split.
  - intros s Hs. simpl.
    destruct (String.eqb_spec (lower s) ALL_STRING); [contradiction | done].
  - eexists. split; reflexivity.
Qed.

(** C2. For the selector "all", in any letter case, the catalog sanitizer
    returns the mission names of the observations document (it calls
    [list_maps]), not those of the catalogs document. *)
Theorem sanatize_input_catalogs_all_lists_maps {Coord Quantity}
    (svc : Services Coord Quantity) (s : string) (st : Client) :
  lower s = ALL_STRING ->
  _sanatize_input_catalogs svc (SelStr s) st
  = (rbind (fetch_json svc (URLbase svc +:+ "/" +:+ OBSERVATIONS_STRING)
              OBSERVATIONS_STRING)
       (fun json => Ok (map mission json)), st).
Proof.
  intros Hs. simpl. rewrite Hs. simpl. apply list_maps_run.
Qed.

(** On the sample deployment "All" resolves to the two observation missions
    while the catalogs document lists one catalog. *)
Lemma sanatize_input_catalogs_all_lists_maps_witness :
  _sanatize_input_catalogs sample_svc (SelStr "All") fresh_client
    = (Ok ["HST"; "Planck"], fresh_client) /\
  list_catalogs sample_svc fresh_client
    = (Ok ["Gaia DR1 TGAS"], fresh_client).
Proof.
  split.
  - rewrite (sanatize_input_catalogs_all_lists_maps sample_svc "All"
               fresh_client); [|reflexivity].
    reflexivity.
  - vm_compute. reflexivity.
Defined.

(** ** Mission directories *)

(** C3, as stated, fails: for the download folder "out" the directory made
    for HST on the empty sample file system is out/Maps/HST, and out/HST
    does not exist afterwards. *)
Lemma create_mission_directory_counterexample :
  let run := _create_mission_directory sample_svc "HST" "out" ∅ in
  run.1 = Ok "out/Maps/HST" /\
  "out/Maps/HST" <> "out" +:+ "/" +:+ "HST" /\
  os_path_exists sample_svc ("out" +:+ "/" +:+ "HST") run.2 = false.
Proof.
  split; [vm_compute; reflexivity|]. split; [discriminate|].
  vm_compute. reflexivity.
Qed.

(** C3, amended. The directory of a mission is Maps/<mission> when the
    download folder is "Maps" (the default) and <download_folder>/Maps/<mission>
    otherwise. When [os.path.exists] finds it, the call returns its path and
    the file system is left as it was. When it is absent, the call is
    [os.makedirs] on exactly that path: it returns the path when
    [os.makedirs] succeeds, on the file system that [os.makedirs] leaves,
    and raises what [os.makedirs] raises. A path that is returned is always
    that directory. *)
Theorem create_mission_directory_path {Coord Quantity}
    (svc : Services Coord Quantity) (mission download_folder : string)
    (fs : FS) :
  let d := if String.eqb download_folder "Maps"
           then "Maps" +:+ "/" +:+ mission
           else download_folder +:+ "/" +:+ "Maps" +:+ "/" +:+ mission in
  (os_path_exists svc d fs = true ->
   _create_mission_directory svc mission download_folder fs = (Ok d, fs)) /\
  (os_path_exists svc d fs = false ->
   (forall fs',
      os_makedirs svc d fs = (Ok tt, fs') ->
      _create_mission_directory svc mission download_folder fs = (Ok d, fs')) /\
   (forall e fs',
      os_makedirs svc d fs = (Err e, fs') ->
      _create_mission_directory svc mission download_folder fs
      = (Err e, fs'))) /\
  (forall p fs',
     _create_mission_directory svc mission download_folder fs = (Ok p, fs') ->
     p = d).
Proof.
  intros d. unfold _create_mission_directory.
  change (if String.eqb download_folder MAPS_STRING
          then MAPS_STRING +:+ "/" +:+ mission
          else download_folder +:+ "/" +:+ MAPS_STRING +:+ "/" +:+ mission)
    with d.
  unfold bind, ret. split; [|split].
  - intros ->. reflexivity.
  - intros ->. simpl. split.
    + intros fs' ->. reflexivity.
    + intros e fs' ->. reflexivity.
  - intros p fs'. destruct (os_path_exists svc d fs); simpl.
    + by intros [= <- _].
    + destruct (os_makedirs svc d fs) as [[[]|e] fs1]; [|discriminate].
      by intros [= <- _].
Qed.

(** With the default folder the directory for HST is Maps/HST; on the empty
    sample file system it is made, with its parent. *)
Lemma create_mission_directory_path_witness :
  _create_mission_directory sample_svc "HST" MAPS_STRING ∅
  = (Ok "Maps/HST", {[ "Maps/HST"; "Maps" ]}).
Proof.
  destruct (create_mission_directory_path sample_svc "HST" MAPS_STRING ∅)
    as (_ & Habsent & _).
  apply Habsent; vm_compute; reflexivity.
Defined.

(** ** Parsing the TAP answer *)

(** C4, as stated, fails: on the sample deployment a body that is no VOTABLE
    makes the parser raise a [TableParseError] that does not carry the
    response. *)
Lemma parse_xml_table_counterexample :
  let response := {| content := "<html>502 Bad Gateway</html>" |} in
  exists e st',
    _parse_xml_table sample_svc response fresh_client = (Err e, st') /\
    exc_class e = TableParseError /\
    ~ carries_response e response.
Proof.
  intros response. eexists _, _. split; [vm_compute; reflexivity|].
  split; [reflexivity|].
  unfold carries_response. simpl. intros H.
  apply list_elem_of_In in H. destruct H as [H|[]]. discriminate H.
Qed.

(** C4, amended. When the decoder fails with [ex], the parser raises a
    [TableParseError] whose only argument is the fixed message and whose
    context is [ex]; the response and [ex] are stored on the client, as
    [self.response] and [self.table_parse_error], and the error does not
    carry the response. *)
Theorem parse_xml_table_failure {Coord Quantity}
    (svc : Services Coord Quantity) (response : Response) (ex : PyExc)
    (st : Client) :
  votable_to_table svc (content response) = Err ex ->
  exists e,
    _parse_xml_table svc response st
    = (Err e, {| self_response := Some response;
                 self_table_parse_error := Some ex |}) /\
    exc_class e = TableParseError /\
    exc_args e = [ObjStr table_parse_message] /\
    exc_context e = Some ex /\
    ~ carries_response e response.
Proof.
  intros Hfail. unfold _parse_xml_table. rewrite Hfail.
  eexists. split; [reflexivity|]. simpl.
  split; [reflexivity|]. split; [reflexivity|]. split; [reflexivity|].
  unfold carries_response. simpl. intros H.
  apply list_elem_of_In in H. destruct H as [H|[]]. discriminate H.
Qed.

Lemma parse_xml_table_failure_witness :
  exists e,
    _parse_xml_table sample_svc {| content := "<html>" |} fresh_client
    = (Err e, {| self_response := Some {| content := "<html>" |};
                 self_table_parse_error :=
                   Some (Exc CollaboratorError
                           [ObjStr "no VOTABLE in the body"] None) |}) /\
    exc_class e = TableParseError /\
    exc_args e = [ObjStr table_parse_message] /\
    exc_context e
      = Some (Exc CollaboratorError [ObjStr "no VOTABLE in the body"] None) /\
    ~ carries_response e {| content := "<html>" |}.
Proof.
  apply (parse_xml_table_failure sample_svc {| content := "<html>" |}).
  vm_compute. reflexivity.
Defined.

(** A body that decodes is returned as a table and the client is left
    untouched. *)
Lemma parse_xml_table_success {Coord Quantity}
    (svc : Services Coord Quantity) (response : Response) (t : Table)
    (st : Client) :
  votable_to_table svc (content response) = Ok t ->
  _parse_xml_table svc response st = (Ok t, st).
Proof. intros H. unfold _parse_xml_table. by rewrite H. Qed.

(** ** File names from Content-Disposition *)

(** The documented example. *)
Lemma extract_file_name_example :
  _extract_file_name_from_response_header
    (header_of ("attachment; filename=" +:+ String dquote "obs123.fits"
                  +:+ String dquote EmptyString))
  = Ok "obs123.fits".
Proof. vm_compute. reflexivity. Qed.

(** When a character follows [filename=] and none of the three suffixes
    occurs after the start of the name, the extraction raises [ValueError]. *)
Lemma extract_file_name_no_suffix (headers : list (string * string))
    (cd : string) (i : nat) (c : ascii) :
  headers_get headers "Content-Disposition" = Some cd ->
  String.index 0 "filename=" cd = Some i ->
  String.get (i + 9) cd = Some c ->
  let start := if Ascii.eqb c dquote then i + 9 + 1 else i + 9 in
  str_contains FITS_STRING (str_slice_from cd start) = false ->
  str_contains FTZ_STRING (str_slice_from cd start) = false ->
  str_contains TAR_STRING (str_slice_from cd start) = false ->
  exists e, _extract_file_name_from_response_header headers = Err e
            /\ exc_class e = ValueError.
Proof.
  intros Hget Hidx Hc start H1 H2 H3.
  unfold _extract_file_name_from_response_header. rewrite Hget.
  unfold str_index. rewrite Hidx. simpl.
  unfold str_getitem. rewrite Hc. simpl.
  fold start. rewrite H1, H2, H3.
  eexists. split; reflexivity.
Qed.

(** C9. A header value that stops right after [filename=] has no suffix
    after the start of the name, yet the extraction raises [IndexError], not
    [ValueError]: the character at the start of the name is read before any
    suffix is looked for. *)
Theorem extract_file_name_empty_name (headers : list (string * string))
    (cd : string) (i : nat) :
  headers_get headers "Content-Disposition" = Some cd ->
  String.index 0 "filename=" cd = Some i ->
  String.length cd = i + 9 ->
  _extract_file_name_from_response_header headers
  = Err (Exc IndexError [ObjStr "string index out of range"] None).
Proof.
  intros Hget Hidx Hlen.
  unfold _extract_file_name_from_response_header. rewrite Hget.
  unfold str_index. rewrite Hidx. simpl.
  unfold str_getitem.
  assert (String.get (i + 9) cd = None) as ->; [|reflexivity].
  rewrite <- Hlen. clear. induction cd as [|x cd IH]; [reflexivity | exact IH].
Qed.

Lemma extract_file_name_empty_name_witness :
  _extract_file_name_from_response_header (header_of "attachment; filename=")
  = Err (Exc IndexError [ObjStr "string index out of range"] None).
Proof.
  apply (extract_file_name_empty_name (header_of "attachment; filename=")
           "attachment; filename=" 12); reflexivity.
Defined.

(** ** The query builders *)

Lemma comma_joined_cons (x y : string) (rest : list string) :
  comma_joined (x :: y :: rest)
  = " " +:+ x +:+ "," +:+ comma_joined (y :: rest).
Proof. unfold comma_joined. simpl. by rewrite !str_app_assoc. Qed.

Lemma tap_names_loop_from (done todo : list MetadataJson) (acc : string) :
  foldl (fun metadata_tap_names i =>
           match (done ++ todo) !! i with
           | Some entry =>
               if (i <? length (done ++ todo) - 1)%nat
               then metadata_tap_names +:+ " " +:+ tapName entry +:+ ","
               else metadata_tap_names +:+ " " +:+ tapName entry
           | None => metadata_tap_names
           end) acc (seq (length done) (length todo))
  = acc +:+ comma_joined (map tapName todo).
Proof.
  revert done acc. induction todo as [|x todo IH]; intros done acc.
  - simpl. unfold comma_joined. simpl. by rewrite str_app_nil_r.
  - cbn [length seq foldl].
    rewrite list_lookup_middle by reflexivity.
    replace (done ++ x :: todo) with ((done ++ [x]) ++ todo)
      by (by rewrite <- app_assoc).
    replace (S (length done)) with (length (done ++ [x]))
      by (rewrite length_app; simpl; lia).
    rewrite IH. destruct todo as [|y todo].
    + assert ((length done <? length ((done ++ [x]) ++ []) - 1)%nat = false)
        as ->.
      { apply Nat.ltb_ge. rewrite !length_app. simpl. lia. }
      unfold comma_joined. simpl. by rewrite str_app_nil_r.
    + assert ((length done <? length ((done ++ [x]) ++ y :: todo) - 1)%nat
              = true) as ->.
      { apply Nat.ltb_lt. rewrite !length_app. simpl. lia. }
      cbn [map]. rewrite comma_joined_cons. by rewrite !str_app_assoc.
Qed.

(** The index loop of both builders yields the comma-joined column list. *)
Lemma metadata_tap_names_joined (md : list MetadataJson) :
  metadata_tap_names_of md = comma_joined (map tapName md).
Proof. apply (tap_names_loop_from [] md EmptyString). Qed.

(** Ten hours of right ascension are 150 degrees. *)
Lemma ten_hours_in_degrees : (10 * 15)%float = 150%float.
Proof. reflexivity. Qed.

(** C6. When the coordinates convert to [(raHours, dec)] and the radius to
    [radiusDeg] degrees, the observation query is SELECT DISTINCT, the TAP
    names of the metadata comma-joined in order, FROM the TAP table, WHERE
    1=CONTAINS(col, CIRCLE('ICRS', ra, dec, r)); with col = pos when the
    entry is a survey mission and fov otherwise, ra = raHours * 15 and
    r = radiusDeg, each number written by the "%f" conversion. *)
Theorem build_observation_query_shape {Coord Quantity}
    (svc : Services Coord Quantity) (coordinates : Coord)
    (radius : RadiusArg Quantity) (json : MissionJson)
    (raHours dec radiusDeg : float) :
  coord_to_radec svc coordinates = Ok (raHours, dec) ->
  radius_to_unit_deg svc radius = Ok radiusDeg ->
  _build_observation_query svc coordinates radius json
  = Ok ("SELECT DISTINCT" +:+ comma_joined (map tapName (metadata json))
          +:+ " FROM " +:+ tapTable json
          +:+ " WHERE 1=CONTAINS("
          +:+ (if isSurveyMission json then "pos" else "fov")
          +:+ ", CIRCLE('ICRS', " +:+ format_f svc (raHours * 15)%float
          +:+ ", " +:+ format_f svc dec
          +:+ ", " +:+ format_f svc radiusDeg +:+ "));").
Proof.
  intros Hc Hr. unfold _build_observation_query.
  rewrite Hc. simpl. rewrite Hr. simpl.
  rewrite metadata_tap_names_joined. f_equal.
  destruct (isSurveyMission json); by rewrite !str_app_assoc.
Qed.

Lemma build_observation_query_shape_witness :
  _build_observation_query sample_svc tt (RadStr "0 arcmin") sample_planck
  = Ok ("SELECT DISTINCT observation_id FROM observations.mv_planck_fdw"
          +:+ " WHERE 1=CONTAINS(pos, CIRCLE('ICRS', 150.000000, 41.500000,"
          +:+ " 0.000000));").
Proof.
  rewrite (build_observation_query_shape sample_svc tt (RadStr "0 arcmin")
             sample_planck 10 41.5 0); reflexivity.
Defined.

(** *** Words of a string *)









(** *** Decimal numerals *)





(** *** Words of a catalog query *)














(** ** The storing loops *)

Section StoreLoop.
Variable py : Unicode.
Variable Q : string -> M Client MissionResult.

(** An answer of [Q] leaves the client as it was. *)
Hypothesis Q_keeps_client :
  forall x st v st', Q x st = (Ok v, st') -> st' = st.

Lemma store_body_ok acc x st acc' st' :
  store_body py Q acc x st = (Ok acc', st') ->
  exists v, Q x st = (Ok v, st) /\ st' = st /\
            acc' = if (0 <? py_len v)%nat
                   then <[str_upper py x := v]> acc else acc.
Proof.
  unfold store_body. intros H.
  apply bind_ok_inv in H as (v & st1 & Hq & H).
  pose proof (Q_keeps_client _ _ _ _ Hq) as ->.
  exists v. split; [exact Hq|].
  destruct (0 <? py_len v)%nat; inversion H; done.
Qed.

(** What a run of the loop leaves in the dictionary: every name was
    answered; an entry is either an old one or the non-empty answer of a
    name with that key; old entries stay; a non-empty answer leaves an
    entry under the key of its name; and a key whose names all have empty
    answers is left as it was. *)
Lemma store_loop_entries (xs : list string) :
  forall acc st m st',
    for_each xs acc (store_body py Q) st = (Ok m, st') ->
    st' = st /\
    (forall x, x ∈ xs -> exists v, Q x st = (Ok v, st)) /\
    (forall k v, m !! k = Some v ->
       acc !! k = Some v \/
       exists x, x ∈ xs /\ str_upper py x = k /\ Q x st = (Ok v, st)
                 /\ 0 < py_len v) /\
    (forall k, is_Some (acc !! k) -> is_Some (m !! k)) /\
    (forall x v, x ∈ xs -> Q x st = (Ok v, st) -> 0 < py_len v ->
       is_Some (m !! str_upper py x)) /\
    (forall k,
       (forall x v, x ∈ xs -> str_upper py x = k -> Q x st = (Ok v, st) ->
          py_len v = 0) ->
       m !! k = acc !! k).
Proof.
  induction xs as [|x xs IH]; intros acc st m st' Hrun.
  - inversion Hrun; subst. split; [done|]. split.
    { intros x Hx. by apply not_elem_of_nil in Hx. }
    split; [by left|]. split; [done|]. split; [|done].
    intros x v Hx. by apply not_elem_of_nil in Hx.
  - simpl in Hrun. apply bind_ok_inv in Hrun as (acc1 & st1 & Hbody & Hrest).
    apply store_body_ok in Hbody as (v0 & Hq & -> & Hacc1).
    destruct (IH _ _ _ _ Hrest) as (-> & Hans & Hent & Hkeep & Hpos & Hzero).
    split; [done|]. split; [|split; [|split; [|split]]].
    + intros y [->|Hy]%elem_of_cons; [eauto | by apply Hans].
    + intros k v Hk. destruct (Hent k v Hk) as [Hold|(y & Hy & Hyk & Hqy & Hv)].
      * rewrite Hacc1 in Hold.
        destruct (Nat.ltb_spec 0 (py_len v0)) as [Hv0|_]; [|by left].
        destruct (decide (str_upper py x = k)) as [Hxk|Hxk].
        -- subst k. rewrite lookup_insert_eq in Hold. inversion Hold; subst v0.
           right. exists x. split; [by apply elem_of_cons; left | done].
        -- rewrite lookup_insert_ne in Hold by done. by left.
      * right. exists y. split; [by apply elem_of_cons; right | done].
    + intros k Hk. apply Hkeep. rewrite Hacc1.
      destruct (0 <? py_len v0)%nat; [|done].
      apply lookup_insert_is_Some'. by right.
    + intros y v [->|Hy]%elem_of_cons Hqy Hv; [|by eapply Hpos].
      rewrite Hq in Hqy. inversion Hqy; subst v0.
      apply Hkeep. rewrite Hacc1.
      destruct (Nat.ltb_spec 0 (py_len v)); [|lia].
      rewrite lookup_insert_eq. by eexists.
    + intros k Hk. rewrite Hzero.
      2:{ intros y v Hy. apply Hk. by apply elem_of_cons; right. }
      rewrite Hacc1. destruct (Nat.ltb_spec 0 (py_len v0)) as [Hv0|_]; [|done].
      rewrite lookup_insert_ne; [done|]. intros Hxk.
      pose proof (Hk x v0 ltac:(by apply elem_of_cons; left) Hxk Hq). lia.
Qed.

(** The same from the empty dictionary: every entry is the non-empty answer
    of a name with its key; a non-empty answer leaves an entry under the key
    of its name; and when the names that share the key of [x] have the
    answer of [x], the key holds that answer if it is non-empty and nothing
    if it is empty. *)
Lemma store_loop_from_empty (xs : list string) st m st' :
  for_each xs ∅ (store_body py Q) st = (Ok m, st') ->
  (forall k v, m !! k = Some v ->
     0 < py_len v /\
     exists x, x ∈ xs /\ str_upper py x = k /\ Q x st = (Ok v, st)) /\
  (forall x, x ∈ xs ->
     exists v, Q x st = (Ok v, st) /\
       (0 < py_len v -> is_Some (m !! str_upper py x)) /\
       ((forall y, y ∈ xs -> str_upper py y = str_upper py x ->
           Q y st = Q x st) ->
        (py_len v = 0 -> m !! str_upper py x = None) /\
        (0 < py_len v -> m !! str_upper py x = Some v))).
Proof.
  intros Hrun.
  destruct (store_loop_entries xs _ _ _ _ Hrun)
    as (-> & Hans & Hent & _ & Hpos & Hzero).
  assert (forall k v, m !! k = Some v ->
            0 < py_len v /\
            exists x, x ∈ xs /\ str_upper py x = k /\ Q x st = (Ok v, st))
    as Hentries.
  { intros k v Hk. destruct (Hent k v Hk) as [Hold|(x & Hx & Hxk & Hq & Hv)].
    - by rewrite lookup_empty in Hold.
    - eauto. }
  split; [exact Hentries|].
  intros x Hx. destruct (Hans x Hx) as (v & Hq). exists v.
  split; [exact Hq|]. split; [by apply Hpos|].
  intros Hsame. split.
  - intros Hv. rewrite Hzero; [apply lookup_empty|].
    intros y vy Hy Hyx Hqy. rewrite (Hsame y Hy Hyx), Hq in Hqy.
    by inversion Hqy; subst.
  - intros Hv. destruct (Hpos x v Hx Hq Hv) as (v' & Hv').
    destruct (Hentries _ _ Hv') as (_ & y & Hy & Hyx & Hqy).
    rewrite (Hsame y Hy Hyx), Hq in Hqy. by inversion Hqy; subst.
Qed.

(** When every per-mission query answers, the loop runs to its end. *)
Lemma store_loop_total (xs : list string) (st : Client) :
  (forall x, x ∈ xs -> exists v, Q x st = (Ok v, st)) ->
  forall acc, exists m, for_each xs acc (store_body py Q) st = (Ok m, st).
Proof.
  induction xs as [|x xs IH]; intros Hall acc; [by eexists|].
  destruct (Hall x ltac:(by apply elem_of_cons; left)) as (v & Hq).
  destruct (IH ltac:(intros y Hy; apply Hall; by apply elem_of_cons; right)
              (if (0 <? py_len v)%nat
               then <[str_upper py x := v]> acc else acc))
    as (m & Hm).
  exists m. simpl. unfold bind at 1, store_body at 1, bind at 1.
  rewrite Hq. by destruct (0 <? py_len v)%nat.
Qed.

End StoreLoop.

(** ** The per-mission queries *)

Lemma find_tap_table_case_blind (py : Unicode) (json : list MissionJson)
    (a b : string) :
  str_lower py a = str_lower py b ->
  _find_mission_tap_table_name_from py json a
  = _find_mission_tap_table_name_from py json b.
Proof.
  intros Hab. induction json as [|entry json IH]; simpl; [reflexivity|].
  by rewrite Hab, IH.
Qed.

(** Names with the same lower-case form get the same payload. *)
Lemma mission_payload_case_blind {Coord Quantity} (py : Unicode)
    (svc : Services Coord Quantity) kind build coordinates radius a b p :
  str_lower py a = str_lower py b ->
  mission_payload py svc kind build coordinates radius a = Ok p ->
  mission_payload py svc kind build coordinates radius b = Ok p.
Proof.
  intros Hab. unfold mission_payload.
  destruct (fetch_json svc _ _) as [json|e]; simpl; [|done].
  unfold _find_mission_tap_table_name.
  rewrite (find_tap_table_case_blind py json a b Hab).
  by destruct (_find_mission_tap_table_name_from py json b).
Qed.

Lemma get_and_parse_keeps_client {Coord Quantity}
    (svc : Services Coord Quantity) payload cache st t st' :
  _get_and_parse_from_tap svc payload cache st = (Ok t, st') -> st' = st.
Proof.
  unfold _get_and_parse_from_tap, _send_get_request, bind, lift.
  destruct (request_get svc _ _ _ _) as [response|e]; [|discriminate].
  unfold _parse_xml_table.
  destruct (votable_to_table svc _); [|discriminate].
  intros H. by inversion H.
Qed.

(** A per-mission maps query is its pure part followed, unless only the
    payload is wanted, by the round trip to the TAP endpoint. *)
Lemma query_region_maps_run {Coord Quantity} (py : Unicode)
    (svc : Services Coord Quantity)
    coordinates radius observation_name get_query_payload st :
  _query_region_maps py svc coordinates radius observation_name
    get_query_payload st
  = match mission_payload py svc OBSERVATIONS_STRING
            (_build_observation_query svc) coordinates radius
            observation_name with
    | Err e => (Err e, st)
    | Ok payload =>
        if get_query_payload then (Ok (MPayload payload), st)
        else bind (_get_and_parse_from_tap svc payload true)
               (fun table => ret (MTable table)) st
    end.
Proof.
  unfold _query_region_maps, mission_payload,
    _find_observation_tap_table_name, _find_observation_parameters,
    _get_observation_json, _fetch_and_parse_json, bind, lift.
  destruct (fetch_json svc _ _) as [json|e]; simpl; [|done].
  destruct (_find_mission_tap_table_name py json observation_name); simpl;
    [|done].
  destruct (_find_mission_parameters_in_json _ json); simpl; [|done].
  destruct (_build_observation_query svc coordinates radius _); simpl;
    [|done].
  by destruct get_query_payload.
Qed.

Lemma query_region_catalog_run {Coord Quantity} (py : Unicode)
    (svc : Services Coord Quantity)
    coordinates radius catalog_name get_query_payload st :
  _query_region_catalog py svc coordinates radius catalog_name
    get_query_payload st
  = match mission_payload py svc CATALOGS_STRING
            (_build_catalog_query svc) coordinates radius catalog_name with
    | Err e => (Err e, st)
    | Ok payload =>
        if get_query_payload then (Ok (MPayload payload), st)
        else bind (_get_and_parse_from_tap svc payload true)
               (fun table => ret (MTable table)) st
    end.
Proof.
  unfold _query_region_catalog, mission_payload,
    _find_catalog_tap_table_name, _find_catalog_parameters,
    _get_catalogs_json, _fetch_and_parse_json, bind, lift.
  destruct (fetch_json svc _ _) as [json|e]; simpl; [|done].
  destruct (_find_mission_tap_table_name py json catalog_name); simpl; [|done].
  destruct (_find_mission_parameters_in_json _ json); simpl; [|done].
  destruct (_build_catalog_query svc coordinates radius _); simpl; [|done].
  by destruct get_query_payload.
Qed.

Lemma for_each_ext {St A B} (xs : list A) (body1 body2 : B -> A -> M St B) :
  (forall acc x st, body1 acc x st = body2 acc x st) ->
  forall acc st, for_each xs acc body1 st = for_each xs acc body2 st.
Proof.
  intros Hext. induction xs as [|x xs IH]; intros acc st; [reflexivity|].
  simpl. unfold bind. rewrite Hext.
  destruct (body2 acc x st) as [[acc'|e] st']; [apply IH | reflexivity].
Qed.

Lemma store_maps_as_loop {Coord Quantity} (py : Unicode)
    (svc : Services Coord Quantity)
    query_result missions coordinates radius get_query_payload st :
  _store_query_result_maps py svc query_result missions coordinates radius
    get_query_payload st
  = for_each missions query_result
      (store_body py
         (query_of svc
            (mission_payload py svc OBSERVATIONS_STRING
               (_build_observation_query svc) coordinates radius)
            get_query_payload)) st.
Proof.
  unfold _store_query_result_maps. apply for_each_ext.
  intros acc x st0. unfold store_body, bind.
  by rewrite query_region_maps_run.
Qed.

Lemma store_catalogs_as_loop {Coord Quantity} (py : Unicode)
    (svc : Services Coord Quantity)
    query_result catalogs coordinates radius get_query_payload st :
  _store_query_result_catalogs py svc query_result catalogs coordinates radius
    get_query_payload st
  = for_each catalogs query_result
      (store_body py
         (query_of svc
            (mission_payload py svc CATALOGS_STRING
               (_build_catalog_query svc) coordinates radius)
            get_query_payload)) st.
Proof.
  unfold _store_query_result_catalogs. apply for_each_ext.
  intros acc x st0. unfold store_body, bind.
  by rewrite query_region_catalog_run.
Qed.

Section QueryOf.
Context {Coord Quantity : Type} (svc : Services Coord Quantity).
Variable payload_of : string -> result (gmap string string).

Lemma query_of_keeps_client get_query_payload x st v st' :
  query_of svc payload_of get_query_payload x st = (Ok v, st') -> st' = st.
Proof.
  unfold query_of. destruct (payload_of x) as [p|e]; [|discriminate].
  destruct get_query_payload; [intros H; by inversion H|].
  intros H. apply bind_ok_inv in H as (t & st1 & Ht & H).
  apply get_and_parse_keeps_client in Ht as ->. by inversion H.
Qed.

(** A name whose payload is that of another gets the answer of the other. *)
Lemma query_of_same_payload get_query_payload a b st v st' :
  (forall p, payload_of a = Ok p -> payload_of b = Ok p) ->
  query_of svc payload_of get_query_payload a st = (Ok v, st') ->
  query_of svc payload_of get_query_payload b st
  = query_of svc payload_of get_query_payload a st.
Proof.
  intros Hab. unfold query_of.
  destruct (payload_of a) as [pa|e] eqn:Hp; [|discriminate].
  intros _. by rewrite (Hab pa eq_refl).
Qed.

Lemma query_of_table x st v st' :
  query_of svc payload_of false x st = (Ok v, st') -> exists t, v = MTable t.
Proof.
  unfold query_of. destruct (payload_of x) as [p|e]; [|discriminate].
  intros H. apply bind_ok_inv in H as (t & st1 & _ & H).
  inversion H. eauto.
Qed.

Lemma query_of_payload x st :
  query_of svc payload_of true x st
  = (rbind (payload_of x) (fun p => Ok (MPayload p)), st).
Proof. unfold query_of. by destruct (payload_of x). Qed.

End QueryOf.

(** C5, as stated, fails: the sample registry lists MASS, with no row, and
    Mass written with a sharp s, with two rows, and the upper-case form of
    both names is MASS. After the loop over the two names the dictionary has
    an entry under the upper-cased name of MASS, whose own table is empty. *)
Lemma store_query_result_counterexample :
  let missions := ["MASS"; "Ma" +:+ eszett] in
  let m : gmap string MissionResult := {[ "MASS" := MTable sample_masz_table ]} in
  let t := {| colnames := ["observation_id"]; rows := [] |} in
  _store_query_result_maps sample_py sample_masz_svc ∅ missions tt
    (RadStr "0 arcmin") false fresh_client = (Ok m, fresh_client) /\
  _query_region_maps sample_py sample_masz_svc tt (RadStr "0 arcmin") "MASS"
    false fresh_client = (Ok (MTable t), fresh_client) /\
  length (rows t) = 0 /\
  m !! str_upper sample_py "MASS" = Some (MTable sample_masz_table).
Proof.
  intros missions m t.
  split; [vm_compute; reflexivity|]. split; [vm_compute; reflexivity|].
  split; reflexivity.
Qed.

(** The storing loop without the payload flag, from the empty dictionary. *)
Lemma store_loop_rows {Coord Quantity} (py : Unicode)
    (svc : Services Coord Quantity) kind build coordinates radius
    (xs : list string) st m st' :
  let Q := query_of svc
             (mission_payload py svc kind build coordinates radius) false in
  for_each xs ∅ (store_body py Q) st = (Ok m, st') ->
  (forall k v, m !! k = Some v ->
     0 < py_len v /\
     exists x, x ∈ xs /\ str_upper py x = k /\ Q x st = (Ok v, st)) /\
  (forall x, x ∈ xs ->
     exists t, Q x st = (Ok (MTable t), st) /\
       (0 < length (rows t) -> is_Some (m !! str_upper py x)) /\
       ((forall y, y ∈ xs -> str_upper py y = str_upper py x ->
           str_lower py y = str_lower py x) ->
        (length (rows t) = 0 -> m !! str_upper py x = None) /\
        (0 < length (rows t) -> m !! str_upper py x = Some (MTable t)))).
Proof.
  intros Q Hrun.
  destruct (store_loop_from_empty py Q (query_of_keeps_client svc _ false)
              xs _ _ _ Hrun) as [Hentries Hin].
  split; [exact Hentries|].
  intros x Hx. destruct (Hin x Hx) as (v & Hq & Hpos & Hsame).
  destruct (query_of_table _ _ _ _ _ _ Hq) as (t & ->).
  exists t. split; [exact Hq|]. split; [exact Hpos|].
  intros Hlower. apply Hsame. intros y Hy Hyx.
  eapply query_of_same_payload; [|exact Hq].
  intros p. apply mission_payload_case_blind. symmetry. by apply Hlower.
Qed.

(** C5, amended. In a region query that asks for tables, the storing loop
    started from the empty dictionary ends with a dictionary as soon as
    every per-mission query gives a table, and whenever it ends with the
    dictionary [m]: every entry of [m] is a table with rows that the
    per-mission query of a mission of the list returned, stored under the
    upper-cased name of that mission; every mission of the list had a table
    from its per-mission query, and if that table has rows, [m] has an entry
    under the mission's upper-cased name. When the names of the list with
    the upper-cased form of a mission also have its lower-cased form, [m]
    has no entry under that form if the mission's table has no rows and
    holds the mission's own table if it has rows. Names in ASCII with the
    same upper-cased form always have the same lower-cased form. This holds
    for the maps loop and for the catalogs loop. *)
Theorem store_query_result_rows {Coord Quantity} (py : Unicode)
    (svc : Services Coord Quantity) (coordinates : Coord)
    (radius : RadiusArg Quantity) (st : Client) :
  (forall missions,
     (forall mission, mission ∈ missions ->
        exists t, _query_region_maps py svc coordinates radius mission false st
                  = (Ok (MTable t), st)) ->
     exists m,
       _store_query_result_maps py svc ∅ missions coordinates radius false st
       = (Ok m, st))
  /\
  (forall missions m st',
     _store_query_result_maps py svc ∅ missions coordinates radius false st
       = (Ok m, st') ->
     (forall k v, m !! k = Some v ->
        0 < py_len v /\
        exists mission,
          mission ∈ missions /\ str_upper py mission = k /\
          _query_region_maps py svc coordinates radius mission false st
          = (Ok v, st)) /\
     (forall mission, mission ∈ missions ->
        exists t,
          _query_region_maps py svc coordinates radius mission false st
            = (Ok (MTable t), st) /\
          (0 < length (rows t) -> is_Some (m !! str_upper py mission)) /\
          ((forall other, other ∈ missions ->
              str_upper py other = str_upper py mission ->
              str_lower py other = str_lower py mission) ->
           (length (rows t) = 0 -> m !! str_upper py mission = None) /\
           (0 < length (rows t) ->
            m !! str_upper py mission = Some (MTable t)))))
  /\
  (forall catalogs,
     (forall catalog, catalog ∈ catalogs ->
        exists t, _query_region_catalog py svc coordinates radius catalog false
                    st = (Ok (MTable t), st)) ->
     exists m,
       _store_query_result_catalogs py svc ∅ catalogs coordinates radius false
         st = (Ok m, st))
  /\
  (forall catalogs m st',
     _store_query_result_catalogs py svc ∅ catalogs coordinates radius false st
       = (Ok m, st') ->
     (forall k v, m !! k = Some v ->
        0 < py_len v /\
        exists catalog,
          catalog ∈ catalogs /\ str_upper py catalog = k /\
          _query_region_catalog py svc coordinates radius catalog false st
          = (Ok v, st)) /\
     (forall catalog, catalog ∈ catalogs ->
        exists t,
          _query_region_catalog py svc coordinates radius catalog false st
            = (Ok (MTable t), st) /\
          (0 < length (rows t) -> is_Some (m !! str_upper py catalog)) /\
          ((forall other, other ∈ catalogs ->
              str_upper py other = str_upper py catalog ->
              str_lower py other = str_lower py catalog) ->
           (length (rows t) = 0 -> m !! str_upper py catalog = None) /\
           (0 < length (rows t) ->
            m !! str_upper py catalog = Some (MTable t)))))
  /\
  (forall a b,
     is_ascii a = true -> is_ascii b = true ->
     str_upper py a = str_upper py b -> str_lower py a = str_lower py b).
Proof.
  split; [|split; [|split; [|split]]].
  - intros missions Hall.
    destruct (store_loop_total py
                (query_of svc
                   (mission_payload py svc OBSERVATIONS_STRING
                      (_build_observation_query svc) coordinates radius) false)
                missions st) with (acc := (∅ : gmap string MissionResult))
      as (m & Hm).
    { intros x Hx. destruct (Hall x Hx) as (t & Ht).
      rewrite query_region_maps_run in Ht. by exists (MTable t). }
    exists m. by rewrite store_maps_as_loop.
  - intros missions m st' Hrun. rewrite store_maps_as_loop in Hrun.
    apply store_loop_rows in Hrun as [Hentries Hin]. split.
    + intros k v Hk. destruct (Hentries k v Hk) as (Hv & x & Hx & Hxk & Hq).
      split; [exact Hv|]. exists x. by rewrite query_region_maps_run.
    + intros mission Hm. rewrite query_region_maps_run. by apply Hin.
  - intros catalogs Hall.
    destruct (store_loop_total py
                (query_of svc
                   (mission_payload py svc CATALOGS_STRING
                      (_build_catalog_query svc) coordinates radius) false)
                catalogs st) with (acc := (∅ : gmap string MissionResult))
      as (m & Hm).
    { intros x Hx. destruct (Hall x Hx) as (t & Ht).
      rewrite query_region_catalog_run in Ht. by exists (MTable t). }
    exists m. by rewrite store_catalogs_as_loop.
  - intros catalogs m st' Hrun. rewrite store_catalogs_as_loop in Hrun.
    apply store_loop_rows in Hrun as [Hentries Hin]. split.
    + intros k v Hk. destruct (Hentries k v Hk) as (Hv & x & Hx & Hxk & Hq).
      split; [exact Hv|]. exists x. by rewrite query_region_catalog_run.
    + intros catalog Hc. rewrite query_region_catalog_run. by apply Hin.
  - apply ascii_same_upper_same_lower.
Qed.

(** On the sample deployment HST has two rows and Planck none: the loop over
    hst and Planck leaves an entry HST and no entry PLANCK. *)
Lemma store_query_result_rows_witness :
  let m : gmap string MissionResult := {["HST" := MTable sample_hst_table]} in
  _store_query_result_maps sample_py sample_svc ∅ ["hst"; "Planck"] tt
    (RadStr "0 arcmin") false fresh_client = (Ok m, fresh_client) /\
  m !! str_upper sample_py "Planck" = None /\
  m !! str_upper sample_py "hst" = Some (MTable sample_hst_table).
Proof.
  intros m.
  assert (_store_query_result_maps sample_py sample_svc ∅ ["hst"; "Planck"] tt
            (RadStr "0 arcmin") false fresh_client = (Ok m, fresh_client))
    as Hrun by (vm_compute; reflexivity).
  split; [exact Hrun|].
  destruct (proj1 (proj2 (store_query_result_rows sample_py sample_svc tt
                            (RadStr "0 arcmin") fresh_client))
              ["hst"; "Planck"] m fresh_client Hrun) as [_ Hin].
  assert (forall x other : string,
            x ∈ ["hst"; "Planck"] -> other ∈ ["hst"; "Planck"] ->
            str_upper sample_py other = str_upper sample_py x ->
            str_lower sample_py other = str_lower sample_py x) as Hsame.
  { intros x other Hx Ho.
    repeat (apply elem_of_cons in Hx as [->|Hx]);
      try (by apply not_elem_of_nil in Hx);
      repeat (apply elem_of_cons in Ho as [->|Ho]);
      try (by apply not_elem_of_nil in Ho);
      vm_compute; first [reflexivity | discriminate]. }
  split.
  - destruct (Hin "Planck") as (t & Hq & _ & Hrows).
    { apply elem_of_cons; right. apply elem_of_cons; by left. }
    vm_compute in Hq. inversion Hq; subst t.
    apply Hrows; [|reflexivity]. intros other Ho. apply Hsame; [|exact Ho].
    apply elem_of_cons; right. apply elem_of_cons; by left.
  - destruct (Hin "hst") as (t & Hq & _ & Hrows).
    { apply elem_of_cons; by left. }
    vm_compute in Hq. inversion Hq; subst t.
    apply Hrows; [|simpl; lia]. intros other Ho. apply Hsame; [|exact Ho].
    apply elem_of_cons; by left.
Defined.

(** ** Payload-only mode *)


Lemma find_tap_table_resolves (py : Unicode) (json : list MissionJson)
    (mission_name : string) :
  resolves_in py json mission_name ->
  exists entry, entry ∈ json /\
    _find_mission_tap_table_name_from py json mission_name
    = Some (tapTable entry).
Proof.
  intros (entry & Hin & Hname). induction json as [|first json IH].
  - by apply not_elem_of_nil in Hin.
  - simpl. destruct (String.eqb_spec (str_lower py (mission first))
                       (str_lower py mission_name)) as [_|Hne].
    + exists first. split; [by apply elem_of_cons; left | reflexivity].
    + apply elem_of_cons in Hin as [->|Hin]; [done|].
      destruct (IH Hin) as (e & He & Hfind).
      exists e. split; [by apply elem_of_cons; right | exact Hfind].
Qed.

Lemma find_parameters_present (json : list MissionJson) (entry : MissionJson) :
  entry ∈ json ->
  exists found, _find_mission_parameters_from (tapTable entry) json = Some found.
Proof.
  intros Hin. induction json as [|first json IH].
  - by apply not_elem_of_nil in Hin.
  - simpl. destruct (String.eqb_spec (tapTable first) (tapTable entry))
      as [_|Hne]; [eauto|].
    apply elem_of_cons in Hin as [->|Hin]; [done | by apply IH].
Qed.

Lemma find_tap_table_from_found (py : Unicode) (json : list MissionJson)
    (name_ t : string) :
  _find_mission_tap_table_name_from py json name_ = Some t ->
  exists entry, entry ∈ json /\
                str_lower py (mission entry) = str_lower py name_
                /\ tapTable entry = t.
Proof.
  induction json as [|first json IH]; simpl; [discriminate|].
  destruct (String.eqb_spec (str_lower py (mission first))
              (str_lower py name_)) as [Heq|_].
  - intros [= <-]. exists first. split; [by apply elem_of_cons; left | done].
  - intros H. destruct (IH H) as (e & He & Hl & Ht).
    exists e. split; [by apply elem_of_cons; right | done].
Qed.

Lemma find_parameters_from_found (json : list MissionJson) (t : string)
    (entry : MissionJson) :
  _find_mission_parameters_from t json = Some entry ->
  entry ∈ json /\ tapTable entry = t.
Proof.
  induction json as [|first json IH]; simpl; [discriminate|].
  destruct (String.eqb_spec (tapTable first) t) as [Heq|_].
  - intros [= <-]. split; [by apply elem_of_cons; left | done].
  - intros H. destruct (IH H) as [He Ht].
    split; [by apply elem_of_cons; right | done].
Qed.










(** ** Herschel archives *)

Lemma assign_in_order_absent {V} (pairs : list (string * V)) :
  forall (d : gmap string V) k,
    k ∉ pairs.*1 -> assign_in_order d pairs !! k = d !! k.
Proof.
  induction pairs as [|[k' v'] pairs IH]; intros d k Hk; [reflexivity|].
  simpl in *. apply not_elem_of_cons in Hk as [Hne Hk].
  unfold assign_in_order in *. simpl. rewrite IH by done.
  by rewrite lookup_insert_ne.
Qed.

(** With distinct keys every pair is found in the dictionary. *)
Lemma assign_in_order_lookup {V} (pairs : list (string * V)) :
  forall (d : gmap string V) k v,
    NoDup pairs.*1 -> (k, v) ∈ pairs -> assign_in_order d pairs !! k = Some v.
Proof.
  induction pairs as [|[k' v'] pairs IH]; intros d k v Hnd Hin.
  - by apply not_elem_of_nil in Hin.
  - simpl in Hnd. apply NoDup_cons in Hnd as [Hk' Hnd].
    apply elem_of_cons in Hin as [Heq|Hin].
    + inversion Heq; subst. unfold assign_in_order. simpl.
      fold (assign_in_order (<[k' := v']> d) pairs).
      rewrite assign_in_order_absent by done. by rewrite lookup_insert_eq.
    + unfold assign_in_order. simpl.
      fold (assign_in_order (<[k' := v']> d) pairs). by apply IH.
Qed.

Lemma assign_in_order_dom {V} (pairs : list (string * V)) :
  forall (d : gmap string V),
    dom (assign_in_order d pairs) = dom d ∪ list_to_set pairs.*1.
Proof.
  induction pairs as [|[k v] pairs IH]; intros d.
  - simpl. by rewrite union_empty_r_L.
  - unfold assign_in_order. simpl.
    fold (assign_in_order (<[k := v]> d) pairs).
    by rewrite IH, dom_insert_L, (comm_L (∪) {[k]} (dom d)), (assoc_L (∪)).
Qed.

Section Herschel.
Context {Coord Quantity : Type} (svc : Services Coord Quantity).
Variables (directory_path : string) (filters : list string).

Lemma herschel_member_skip acc member fs :
  herschel_match member = false ->
  herschel_member svc directory_path filters acc member fs = (Ok acc, fs).
Proof.
  intros Hno. unfold herschel_member. destruct acc as [observation i].
  unfold herschel_match in Hno. by rewrite Hno.
Qed.

(** A kept member under a directory is extracted, renamed and opened; then
    the filter list is read at the counter. *)
Lemma herschel_member_keep observation i member fs :
  herschel_match member = true ->
  str_contains "/" (name member) = true ->
  exists fs',
    herschel_member svc directory_path filters (observation, i) member fs
    = (rbind (list_getitem filters i) (fun key =>
         Ok (<[key := herschel_product directory_path member]> observation,
             i + 1)), fs').
Proof.
  intros Hyes Hslash. unfold herschel_member.
  unfold herschel_match in Hyes. rewrite Hyes.
  unfold herschel_product, strip_top_directory.
  unfold str_contains in Hslash.
  unfold bind at 1, tar_extract at 1.
  unfold bind at 1, _remove_extra_herschel_directory, bind at 1, lift at 1,
    str_index.
  destruct (String.index 0 "/" (name member)) as [slash|]; [|discriminate].
  unfold bind at 1, os_renames at 1, ret at 1.
  unfold bind, lift. eexists.
  destruct (list_getitem filters i); reflexivity.
Qed.

(** With enough names left, the loop assigns them in order. *)
Lemma herschel_loop_assigns (members : list TarInfo) :
  forall observation i fs,
    under_directory members ->
    i + length (filter (fun m => herschel_match m = true) members)
      <= length filters ->
    exists fs',
      for_each members (observation, i)
        (herschel_member svc directory_path filters) fs
      = (Ok (assign_in_order observation
               (zip (drop i filters)
                  (herschel_product directory_path
                     <$> filter (fun m => herschel_match m = true) members)),
             i + length (filter (fun m => herschel_match m = true) members)),
         fs').
Proof.
  induction members as [|member members IH]; intros observation i fs Hdir Hlen.
  - exists fs. simpl. rewrite Nat.add_0_r.
    by destruct (drop i filters).
  - assert (under_directory members) as Hdir'.
    { intros m Hm. apply Hdir. by apply elem_of_cons; right. }
    destruct (herschel_match member) eqn:Hmatch.
    + rewrite filter_cons_True in * by done. simpl in Hlen.
      destruct (herschel_member_keep observation i member fs Hmatch)
        as (fs1 & Hstep).
      { apply Hdir; [by apply elem_of_cons; left | done]. }
      destruct (lookup_lt_is_Some_2 filters i ltac:(lia)) as (key & Hkey).
      unfold list_getitem in Hstep. rewrite Hkey in Hstep. simpl in Hstep.
      destruct (IH (<[key := herschel_product directory_path member]>
                      observation) (i + 1) fs1 Hdir' ltac:(lia))
        as (fs' & Hrest).
      exists fs'. cbn [for_each]. rewrite (bind_ok _ _ _ _ _ Hstep), Hrest.
      rewrite (drop_S _ _ _ Hkey). cbn [fmap list_fmap zip zip_with length].
      replace (i + 1) with (S i) by lia.
      replace (i + S (length (filter (fun m => herschel_match m = true)
                            members)))
        with (S i + length (filter (fun m => herschel_match m = true)
                              members)) by lia.
      reflexivity.
    + rewrite filter_cons_False in * by (by rewrite Hmatch).
      destruct (IH observation i fs Hdir' Hlen) as (fs' & Hrest).
      exists fs'. cbn [for_each].
      rewrite (bind_ok _ _ _ _ _
                 (herschel_member_skip (observation, i) member fs Hmatch)).
      exact Hrest.
Qed.

(** With too few names left, the loop ends in [IndexError]. *)
Lemma herschel_loop_exhausts (members : list TarInfo) :
  forall observation i fs,
    under_directory members ->
    i <= length filters ->
    length filters
      < i + length (filter (fun m => herschel_match m = true) members) ->
    exists fs',
      for_each members (observation, i)
        (herschel_member svc directory_path filters) fs
      = (Err (Exc IndexError [ObjStr "list index out of range"] None), fs').
Proof.
  induction members as [|member members IH];
    intros observation i fs Hdir Hi Hlen.
  - simpl in Hlen. lia.
  - assert (under_directory members) as Hdir'.
    { intros m Hm. apply Hdir. by apply elem_of_cons; right. }
    destruct (herschel_match member) eqn:Hmatch.
    + rewrite filter_cons_True in Hlen by done. simpl in Hlen.
      destruct (herschel_member_keep observation i member fs Hmatch)
        as (fs1 & Hstep).
      { apply Hdir; [by apply elem_of_cons; left | done]. }
      unfold list_getitem in Hstep.
      destruct (filters !! i) as [key|] eqn:Hkey; simpl in Hstep.
      * apply lookup_lt_Some in Hkey.
        destruct (IH (<[key := herschel_product directory_path member]>
                        observation) (i + 1) fs1 Hdir' ltac:(lia) ltac:(lia))
          as (fs' & Hrest).
        exists fs'. cbn [for_each]. by rewrite (bind_ok _ _ _ _ _ Hstep).
      * exists fs1. cbn [for_each]. by rewrite (bind_err _ _ _ _ _ Hstep).
    + rewrite filter_cons_False in Hlen by (by rewrite Hmatch).
      destruct (IH observation i fs Hdir' Hi Hlen) as (fs' & Hrest).
      exists fs'. cbn [for_each].
      rewrite (bind_ok _ _ _ _ _
                 (herschel_member_skip (observation, i) member fs Hmatch)).
      exact Hrest.
Qed.

End Herschel.

(** C8, as stated, fails: the sample archive flat.tar has one kept member,
    hspire.fits, which sits under no directory; with one filter name the
    list is long enough, yet the call raises [ValueError]. *)
Lemma get_herschel_observation_counterexample :
  let members := [ {| name := "hspire.fits" |} ] in
  open_tar sample_svc "http://archive/flat.tar" = Ok members /\
  length (filter (fun m => herschel_match m = true) members) <= length ["250"] /\
  (_get_herschel_observation sample_svc "http://archive/flat.tar"
     "Maps/HERSCHEL/" ["250"] ∅).1
  = Err (Exc ValueError [ObjStr "substring not found"] None).
Proof.
  intros members. split; [reflexivity|]. split; [vm_compute; lia|].
  vm_compute. reflexivity.
Qed.

(** C8, amended. For an archive whose kept members (those with hspire or
    hpacs in the lower-cased name, N of them) all sit under a directory:
    with at least N filter names the result is the dictionary obtained by
    assigning, in the order of the archive, the i-th of the first N names to
    the data product of the i-th kept member; its keys are the first N
    names, and when these are distinct the i-th name maps to the i-th
    product. With fewer than N names the call raises [IndexError]. *)
Theorem get_herschel_observation_pairs {Coord Quantity}
    (svc : Services Coord Quantity) (product_url directory_path : string)
    (filters : list string) (members : list TarInfo) (fs : FS) :
  open_tar svc product_url = Ok members ->
  under_directory members ->
  let kept := filter (fun m => herschel_match m = true) members in
  (length kept <= length filters ->
   exists observation fs',
     _get_herschel_observation svc product_url directory_path filters fs
       = (Ok observation, fs') /\
     observation
       = assign_in_order ∅
           (zip (take (length kept) filters)
              (herschel_product directory_path <$> kept)) /\
     dom observation = list_to_set (take (length kept) filters) /\
     (NoDup (take (length kept) filters) ->
      forall i key member,
        filters !! i = Some key -> kept !! i = Some member ->
        observation !! key = Some (herschel_product directory_path member)))
  /\
  (length filters < length kept ->
   exists fs',
     _get_herschel_observation svc product_url directory_path filters fs
       = (Err (Exc IndexError [ObjStr "list index out of range"] None), fs')).
Proof.
  intros Hopen Hdir kept. split.
  - intros Hlen.
    destruct (herschel_loop_assigns svc directory_path filters members ∅ 0 fs
                Hdir Hlen) as (fs' & Hloop).
    fold kept in Hloop. rewrite drop_0 in Hloop.
    assert (zip filters (herschel_product directory_path <$> kept)
            = zip (take (length kept) filters)
                (herschel_product directory_path <$> kept)) as Hzip.
    { symmetry. apply zip_with_take_l'. rewrite length_fmap. lia. }
    rewrite Hzip in Hloop.
    assert ((zip (take (length kept) filters)
               (herschel_product directory_path <$> kept)).*1
            = take (length kept) filters) as Hkeys.
    { apply fst_zip. rewrite length_fmap, length_take. lia. }
    eexists _, fs'. split; [|split; [reflexivity|split]].
    + unfold _get_herschel_observation, bind at 1, lift at 1.
      rewrite Hopen. by rewrite (bind_ok _ _ _ _ _ Hloop).
    + by rewrite assign_in_order_dom, dom_empty_L, union_empty_l_L, Hkeys.
    + intros Hnd i key member Hkey Hmem.
      apply assign_in_order_lookup; [by rewrite Hkeys|].
      apply (list_elem_of_lookup_2 _ i). apply lookup_zip_with_Some.
      exists key, (herschel_product directory_path member).
      split; [reflexivity|]. split.
      * rewrite lookup_take_lt; [done|]. by apply lookup_lt_Some in Hmem.
      * by rewrite list_lookup_fmap, Hmem.
  - intros Hlen.
    destruct (herschel_loop_exhausts svc directory_path filters members ∅ 0 fs
                Hdir ltac:(lia) Hlen) as (fs' & Hloop).
    exists fs'. unfold _get_herschel_observation, bind at 1, lift at 1.
    rewrite Hopen. by rewrite (bind_err _ _ _ _ _ Hloop).
Qed.

Lemma sample_archive_under_directory :
  under_directory [ {| name := "1342/README" |};
                    {| name := "1342/hspire_psw.fits" |};
                    {| name := "1342/hspire_pmw.fits" |} ].
Proof.
  intros member Hin _.
  repeat (apply elem_of_cons in Hin as [->|Hin]; [reflexivity|]).
  by apply not_elem_of_nil in Hin.
Qed.

(** On the sample archive, the three names 250, 350, 500 pair off with the
    two kept members in order, and the single name 250 is exhausted by the
    second member. *)
Lemma get_herschel_observation_pairs_witness :
  (exists observation fs',
     _get_herschel_observation sample_svc "http://archive/1342.tar"
       "Maps/HERSCHEL/" ["250"; "350"; "500"] ∅ = (Ok observation, fs') /\
     observation !! "250"
       = Some {| hdu_path := "Maps/HERSCHEL/hspire_psw.fits" |} /\
     observation !! "350"
       = Some {| hdu_path := "Maps/HERSCHEL/hspire_pmw.fits" |}) /\
  (exists fs',
     _get_herschel_observation sample_svc "http://archive/1342.tar"
       "Maps/HERSCHEL/" ["250"] ∅
     = (Err (Exc IndexError [ObjStr "list index out of range"] None), fs')).
Proof.
  split.
  - destruct (proj1 (get_herschel_observation_pairs sample_svc
                       "http://archive/1342.tar" "Maps/HERSCHEL/"
                       ["250"; "350"; "500"] _ ∅ eq_refl
                       sample_archive_under_directory))
      as (observation & fs' & Hrun & _ & _ & Hpairs).
    { vm_compute. lia. }
    exists observation, fs'. split; [exact Hrun|].
    assert (NoDup ["250"; "350"]) as Hnd.
    { repeat (apply NoDup_cons; split;
              [intros H; repeat (apply elem_of_cons in H as [H|H];
                                 [discriminate H|]);
               by apply not_elem_of_nil in H|]).
      apply NoDup_nil_2. }
    split.
    + apply (Hpairs Hnd 0 "250" {| name := "1342/hspire_psw.fits" |});
        reflexivity.
    + apply (Hpairs Hnd 1 "350" {| name := "1342/hspire_pmw.fits" |});
        reflexivity.
  - apply (proj2 (get_herschel_observation_pairs sample_svc
                    "http://archive/1342.tar" "Maps/HERSCHEL/"
                    ["250"] _ ∅ eq_refl sample_archive_under_directory)).
    vm_compute. lia.
Defined.

(** * Further properties *)

(** ** Registry look-ups *)

Lemma find_tap_table_from_first (py : Unicode) (pre post : list MissionJson)
    (entry : MissionJson) (mission_name : string) :
  (forall x, x ∈ pre ->
     str_lower py (mission x) <> str_lower py mission_name) ->
  str_lower py (mission entry) = str_lower py mission_name ->
  _find_mission_tap_table_name_from py (pre ++ entry :: post) mission_name
  = Some (tapTable entry).
Proof.
  intros Hpre Hentry. induction pre as [|first pre IH]; simpl.
  - by rewrite Hentry, String.eqb_refl.
  - destruct (String.eqb_spec (str_lower py (mission first))
                (str_lower py mission_name)) as [Heq|_].
    + exfalso. apply (Hpre first); [by apply elem_of_cons; left | done].
    + apply IH. intros x Hx. apply Hpre. by apply elem_of_cons; right.
Qed.

(** X1. The look-up of a mission name compares the lower-cased forms of the
    names, as [str.lower] gives them, and answers with the TAP table of the
    first entry that matches; when no entry matches it raises [ValueError]
    with the message "Input <name> not available." *)
Theorem find_mission_tap_table_name_first_match (py : Unicode)
    (json : list MissionJson) (mission_name : string) :
  (forall pre entry post,
     json = pre ++ entry :: post ->
     (forall x, x ∈ pre ->
        str_lower py (mission x) <> str_lower py mission_name) ->
     str_lower py (mission entry) = str_lower py mission_name ->
     _find_mission_tap_table_name py json mission_name
     = Ok (tapTable entry)) /\
  ((forall x, x ∈ json ->
      str_lower py (mission x) <> str_lower py mission_name) ->
   _find_mission_tap_table_name py json mission_name
   = Err (Exc ValueError
            [ObjStr ("Input " +:+ mission_name +:+ " not available.")] None)).
Proof.
  unfold _find_mission_tap_table_name. split.
  - intros pre entry post -> Hpre Hentry.
    by rewrite (find_tap_table_from_first py pre post entry mission_name
                  Hpre Hentry).
  - intros Hnone.
    destruct (_find_mission_tap_table_name_from py json mission_name) as [t|]
      eqn:Hfind; [|done].
    apply find_tap_table_from_found in Hfind as (e & He & Hl & _).
    by destruct (Hnone e He).
Qed.

(** In the sample registry with MASS and Mass written with a sharp s, the
    lower-cased name with the sharp s finds the second entry, and the name
    mass finds the first. *)
Lemma find_mission_tap_table_name_first_match_witness :
  _find_mission_tap_table_name sample_py [sample_mass; sample_masz]
    ("ma" +:+ eszett) = Ok "observations.mv_masz_fdw" /\
  _find_mission_tap_table_name sample_py [sample_mass; sample_masz] "mass"
    = Ok "observations.mv_mass_fdw" /\
  _find_mission_tap_table_name sample_py [sample_hst; sample_planck] "Gaia"
    = Err (Exc ValueError [ObjStr "Input Gaia not available."] None).
Proof.
  split; [|split].
  - apply (proj1 (find_mission_tap_table_name_first_match sample_py
                    [sample_mass; sample_masz] ("ma" +:+ eszett))
             [sample_mass] sample_masz []); [reflexivity| |reflexivity].
    intros x [->|[]%not_elem_of_nil]%elem_of_cons. discriminate.
  - apply (proj1 (find_mission_tap_table_name_first_match sample_py
                    [sample_mass; sample_masz] "mass")
             [] sample_mass [sample_masz]); [reflexivity| |reflexivity].
    intros x []%not_elem_of_nil.
  - apply (proj2 (find_mission_tap_table_name_first_match sample_py
                    [sample_hst; sample_planck] "Gaia")).
    intros x [->|[->|[]%not_elem_of_nil]%elem_of_cons]%elem_of_cons;
      discriminate.
Defined.

Lemma NoDup_fmap_elem {A B} (f : A -> B) (l : list A) (x y : A) :
  NoDup (f <$> l) -> x ∈ l -> y ∈ l -> f x = f y -> x = y.
Proof.
  intros Hnd [i Hi]%list_elem_of_lookup [j Hj]%list_elem_of_lookup Hf.
  assert (i = j) as ->.
  { apply (NoDup_lookup _ i j (f x) Hnd).
    - by rewrite list_lookup_fmap, Hi.
    - by rewrite list_lookup_fmap, Hj, Hf. }
  congruence.
Qed.

(** X2. A name that resolves to a TAP table always has parameters: looking
    the resolved table up in the same document succeeds with an entry of
    that table; and when no two entries of the document share a TAP table,
    that entry is one whose mission name is the requested one, letter case
    aside. *)
Theorem resolved_tap_table_has_parameters (py : Unicode)
    (json : list MissionJson) (mission_name t : string) :
  _find_mission_tap_table_name py json mission_name = Ok t ->
  exists entry,
    _find_mission_parameters_in_json t json = Ok entry /\
    entry ∈ json /\ tapTable entry = t /\
    (NoDup (tapTable <$> json) ->
     str_lower py (mission entry) = str_lower py mission_name).
Proof.
  unfold _find_mission_tap_table_name, _find_mission_parameters_in_json.
  destruct (_find_mission_tap_table_name_from py json mission_name) as [t'|]
    eqn:Hfind; [|discriminate].
  intros [= ->].
  apply find_tap_table_from_found in Hfind as (e & He & Hl & Ht). subst t.
  destruct (find_parameters_present json e He) as (found & Hfound).
  rewrite Hfound. exists found.
  apply find_parameters_from_found in Hfound as [Hin Htap].
  split; [done|]. split; [done|]. split; [done|].
  intros Hnd. by rewrite (NoDup_fmap_elem tapTable json found e Hnd Hin He Htap).
Qed.

Lemma resolved_tap_table_has_parameters_witness :
  exists entry,
    _find_mission_parameters_in_json "observations.mv_planck_fdw"
      [sample_hst; sample_planck] = Ok entry /\
    entry ∈ [sample_hst; sample_planck] /\
    tapTable entry = "observations.mv_planck_fdw" /\
    (NoDup (tapTable <$> [sample_hst; sample_planck]) ->
     str_lower sample_py (mission entry) = str_lower sample_py "planck").
Proof.
  apply (resolved_tap_table_has_parameters sample_py
           [sample_hst; sample_planck] "planck" "observations.mv_planck_fdw").
  reflexivity.
Defined.

Lemma listed_names_resolve (py : Unicode) (json : list MissionJson)
    (n : string) :
  n ∈ map mission json ->
  exists t, _find_mission_tap_table_name py json n = Ok t.
Proof.
  intros Hn. apply list_elem_of_In, in_map_iff in Hn as (e & <- & He).
  apply list_elem_of_In in He.
  destruct (find_tap_table_resolves py json (mission e)) as (e' & _ & Hfind).
  { exists e. split; [done | reflexivity]. }
  unfold _find_mission_tap_table_name. rewrite Hfind. eauto.
Qed.

(** X3. Every name that [list_maps] lists resolves in the observations
    document, and every name that [list_catalogs] lists resolves in the
    catalogs document; listing leaves the client as it was. *)
Theorem listed_missions_resolve {Coord Quantity} (py : Unicode)
    (svc : Services Coord Quantity) (st : Client) :
  (forall names st',
     list_maps svc st = (Ok names, st') ->
     st' = st /\
     forall n, n ∈ names ->
       exists t, _find_observation_tap_table_name py svc n st = (Ok t, st)) /\
  (forall names st',
     list_catalogs svc st = (Ok names, st') ->
     st' = st /\
     forall n, n ∈ names ->
       exists t, _find_catalog_tap_table_name py svc n st = (Ok t, st)).
Proof.
  split; intros names st' Hlist.
  - rewrite list_maps_run in Hlist.
    destruct (fetch_json svc _ _) as [json|e] eqn:Hfetch; [|discriminate].
    simpl in Hlist. inversion Hlist; subst. split; [done|].
    intros n Hn. destruct (listed_names_resolve py json n Hn) as (t & Ht).
    exists t. unfold _find_observation_tap_table_name, _fetch_and_parse_json,
      bind, lift. by rewrite Hfetch, Ht.
  - rewrite list_catalogs_run in Hlist.
    destruct (fetch_json svc _ _) as [json|e] eqn:Hfetch; [|discriminate].
    simpl in Hlist. inversion Hlist; subst. split; [done|].
    intros n Hn. destruct (listed_names_resolve py json n Hn) as (t & Ht).
    exists t. unfold _find_catalog_tap_table_name, _fetch_and_parse_json,
      bind, lift. by rewrite Hfetch, Ht.
Qed.

Lemma listed_missions_resolve_witness :
  list_maps sample_svc fresh_client = (Ok ["HST"; "Planck"], fresh_client) /\
  exists t,
    _find_observation_tap_table_name sample_py sample_svc "Planck"
      fresh_client
    = (Ok t, fresh_client).
Proof.
  assert (list_maps sample_svc fresh_client
          = (Ok ["HST"; "Planck"], fresh_client)) as Hlist by reflexivity.
  split; [exact Hlist|].
  apply (proj2 (proj1 (listed_missions_resolve sample_py sample_svc
                         fresh_client) _ _ Hlist)).
  apply elem_of_cons; right. apply elem_of_cons; by left.
Defined.

(** ** Selectors of a maps query *)

(** X4. The mission selector of a maps query resolves as follows: a list is
    taken as it is; a string other than "all" (in any letter case) becomes a
    singleton; "all" becomes the mission names of the observations document,
    in document order, or the error of fetching it; anything else raises
    [ValueError]. The client is never changed. *)
Theorem sanatize_input_mission_rule {Coord Quantity}
    (svc : Services Coord Quantity) (st : Client) :
  (forall l, _sanatize_input_mission svc (SelList l) st = (Ok l, st)) /\
  (forall s, lower s <> "all" ->
     _sanatize_input_mission svc (SelStr s) st = (Ok [s], st)) /\
  (forall s, lower s = "all" ->
     _sanatize_input_mission svc (SelStr s) st
     = (rbind (fetch_json svc (URLbase svc +:+ "/" +:+ "observations")
                 "observations")
          (fun json => Ok (map mission json)), st)) /\
  _sanatize_input_mission svc SelOther st
  = (Err (Exc ValueError
            [ObjStr "Mission must be either a string or a list of missions"]
            None), st).
Proof.
  split; [done|]. split; [|split; [|done]].
  - intros s Hs. simpl.
    destruct (String.eqb_spec (lower s) ALL_STRING); [contradiction | done].
  - intros s Hs. simpl. rewrite Hs. simpl. apply list_maps_run.
Qed.

Lemma sanatize_input_mission_rule_witness :
  _sanatize_input_mission sample_svc (SelStr "Hst") fresh_client
    = (Ok ["Hst"], fresh_client) /\
  _sanatize_input_mission sample_svc (SelStr "ALL") fresh_client
    = (Ok ["HST"; "Planck"], fresh_client).
Proof.
  destruct (sanatize_input_mission_rule sample_svc fresh_client)
    as (_ & Hone & Hall & _).
  split.
  - apply Hone. discriminate.
  - rewrite Hall; reflexivity.
Defined.

(** ** Validation comes first *)

(** X5. A region query whose position is neither a string nor a coordinate
    object raises [ValueError] whatever the other arguments and the
    collaborators are, and so does one with a valid position whose radius is
    neither a string nor a quantity; the object queries raise on the same
    positions. Nothing is fetched and the client is left as it was. *)
Theorem region_query_validates_first {Coord Quantity} (py : Unicode)
    (svc : Services Coord Quantity) (position : PositionArg Coord)
    (radius : RadiusArg Quantity) (selector : SelectorArg)
    (get_query_payload : bool) (st : Client) :
  let bad_position :=
    Err (Exc ValueError
           [ObjStr "Position must be either a string or astropy.coordinates"]
           None) in
  let bad_radius :=
    Err (Exc ValueError
           [ObjStr "Radius must be either a string or astropy.units.Quantity"]
           None) in
  query_region_maps py svc PosOther radius selector get_query_payload st
    = (bad_position, st) /\
  query_region_catalogs py svc PosOther radius selector get_query_payload st
    = (bad_position, st) /\
  query_object_maps py svc PosOther selector get_query_payload st
    = (bad_position, st) /\
  query_object_catalogs py svc PosOther selector get_query_payload st
    = (bad_position, st) /\
  (position <> PosOther ->
   query_region_maps py svc position RadOther selector get_query_payload st
     = (bad_radius, st) /\
   query_region_catalogs py svc position RadOther selector get_query_payload st
     = (bad_radius, st)).
Proof.
  intros bad_position bad_radius.
  repeat (split; [reflexivity|]).
  intros Hpos. destruct position; [done | done | contradiction].
Qed.

Lemma region_query_validates_first_witness :
  query_region_maps sample_py sample_svc (PosStr "m101") RadOther (SelStr "all") false
    fresh_client
  = (Err (Exc ValueError
            [ObjStr "Radius must be either a string or astropy.units.Quantity"]
            None), fresh_client).
Proof.
  apply (region_query_validates_first sample_py sample_svc (PosStr "m101") RadOther
           (SelStr "all") false fresh_client).
  discriminate.
Defined.

(** ** Payload-only mode and the TAP endpoint *)

Lemma store_loop_payload_client {Coord Quantity} (py : Unicode)
    (svc : Services Coord Quantity)
    (payload_of : string -> result (gmap string string))
    (xs : list string) :
  forall acc st,
    (for_each xs acc (store_body py (query_of svc payload_of true)) st).2 = st.
Proof.
  induction xs as [|x xs IH]; intros acc st; [reflexivity|].
  simpl. unfold bind at 1, store_body at 1, bind at 1.
  rewrite query_of_payload.
  destruct (payload_of x) as [p|e]; simpl; [|reflexivity].
  destruct (0 <? size p)%nat; apply IH.
Qed.

Lemma query_region_maps_payload_client {Coord Quantity} (py : Unicode)
    (svc : Services Coord Quantity) position radius selector st :
  (query_region_maps py svc position radius selector true st).2 = st.
Proof.
  unfold query_region_maps, bind, lift.
  destruct (_sanatize_input_position position) as [pos|]; [|reflexivity].
  destruct (_sanatize_input_radius radius) as [rad|]; [|reflexivity].
  destruct (_sanatize_input_mission svc selector st) as [[l|e] st1] eqn:Hsel.
  2:{ destruct selector as [l|s|]; simpl in Hsel; try by inversion Hsel.
      destruct (String.eqb (lower s) ALL_STRING); [|by inversion Hsel].
      rewrite list_maps_run in Hsel. by inversion Hsel. }
  assert (st1 = st) as ->.
  { destruct selector as [l'|s|]; simpl in Hsel; try by inversion Hsel.
    destruct (String.eqb (lower s) ALL_STRING); [|by inversion Hsel].
    rewrite list_maps_run in Hsel. by inversion Hsel. }
  destruct (parse_coordinates svc _) as [coordinates|]; [|reflexivity].
  rewrite store_maps_as_loop.
  pose proof (store_loop_payload_client py svc
                (mission_payload py svc OBSERVATIONS_STRING
                   (_build_observation_query svc) coordinates rad) l ∅ st)
    as Hst.
  destruct (for_each l ∅ _ st) as [[m|e] st2]; simpl in *; by subst.
Qed.

Lemma query_region_catalogs_payload_client {Coord Quantity} (py : Unicode)
    (svc : Services Coord Quantity) position radius selector st :
  (query_region_catalogs py svc position radius selector true st).2 = st.
Proof.
  unfold query_region_catalogs, bind, lift.
  destruct (_sanatize_input_position position) as [pos|]; [|reflexivity].
  destruct (_sanatize_input_radius radius) as [rad|]; [|reflexivity].
  destruct (_sanatize_input_catalogs svc selector st) as [[l|e] st1] eqn:Hsel.
  2:{ destruct selector as [l|s|]; simpl in Hsel; try by inversion Hsel.
      destruct (String.eqb (lower s) ALL_STRING); [|by inversion Hsel].
      rewrite list_maps_run in Hsel. by inversion Hsel. }
  assert (st1 = st) as ->.
  { destruct selector as [l'|s|]; simpl in Hsel; try by inversion Hsel.
    destruct (String.eqb (lower s) ALL_STRING); [|by inversion Hsel].
    rewrite list_maps_run in Hsel. by inversion Hsel. }
  destruct (parse_coordinates svc _) as [coordinates|]; [|reflexivity].
  rewrite store_catalogs_as_loop.
  pose proof (store_loop_payload_client py svc
                (mission_payload py svc CATALOGS_STRING
                   (_build_catalog_query svc) coordinates rad) l ∅ st)
    as Hst.
  destruct (for_each l ∅ _ st) as [[m|e] st2]; simpl in *; by subst.
Qed.

(** X6. In payload-only mode a region query never calls the TAP endpoint or
    the VOTABLE decoder and never touches the client: two deployments that
    agree on the base URL, the registry documents, the coordinate and radius
    conversions and the number format give the same outcome, whatever their
    endpoints answer, and the client comes back as it was, also when the
    query raises. *)
Theorem payload_only_needs_no_endpoint {Coord Quantity} (py : Unicode)
    (svc1 svc2 : Services Coord Quantity) (position : PositionArg Coord)
    (radius : RadiusArg Quantity) (selector : SelectorArg) (st : Client) :
  URLbase svc1 = URLbase svc2 ->
  fetch_json svc1 = fetch_json svc2 ->
  parse_coordinates svc1 = parse_coordinates svc2 ->
  coord_to_radec svc1 = coord_to_radec svc2 ->
  radius_to_unit_deg svc1 = radius_to_unit_deg svc2 ->
  format_f svc1 = format_f svc2 ->
  query_region_maps py svc1 position radius selector true st
    = query_region_maps py svc2 position radius selector true st /\
  (query_region_maps py svc1 position radius selector true st).2 = st /\
  query_region_catalogs py svc1 position radius selector true st
    = query_region_catalogs py svc2 position radius selector true st /\
  (query_region_catalogs py svc1 position radius selector true st).2 = st.
Proof.
  intros Hurl Hfetch Hparse Hradec Hradius Hfmt.
  split; [|split; [apply query_region_maps_payload_client|
                   split; [|apply query_region_catalogs_payload_client]]].
  - destruct svc1, svc2; simpl in *; subst. reflexivity.
  - destruct svc1, svc2; simpl in *; subst. reflexivity.
Qed.

Lemma payload_only_needs_no_endpoint_witness :
  query_region_maps sample_py sample_svc (PosStr "m101") (RadStr "14 arcmin")
    (SelStr "all") true fresh_client
  = query_region_maps sample_py sample_offline_svc (PosStr "m101") (RadStr "14 arcmin")
      (SelStr "all") true fresh_client.
Proof.
  apply (payload_only_needs_no_endpoint sample_py sample_svc
           sample_offline_svc);
    reflexivity.
Defined.

(** ** The first failure ends a region query *)

Lemma store_loop_first_failure (py : Unicode)
    (Q : string -> M Client MissionResult)
    (pre : list string) (x : string) (post : list string) st e st' :
  (forall y, y ∈ pre -> exists v, Q y st = (Ok v, st)) ->
  Q x st = (Err e, st') ->
  forall acc,
    for_each (pre ++ x :: post) acc (store_body py Q) st = (Err e, st').
Proof.
  intros Hpre Hx. induction pre as [|y pre IH]; intros acc.
  - simpl. unfold bind at 1, store_body at 1, bind at 1. by rewrite Hx.
  - destruct (Hpre y ltac:(by apply elem_of_cons; left)) as (v & Hv).
    simpl. unfold bind at 1, store_body at 1, bind at 1. rewrite Hv.
    destruct (0 <? py_len v)%nat; simpl; apply IH;
      intros z Hz; apply Hpre; by apply elem_of_cons; right.
Qed.

(** X7. A region query has no partial result: when the per-mission queries of
    the missions before [mission] answer and the one of [mission] raises [e],
    the storing loop raises [e], whatever missions follow and whatever was
    stored before, and the client is as the failing query left it. This holds
    for the maps loop and for the catalogs loop, in both modes. *)
Theorem store_query_result_first_failure {Coord Quantity} (py : Unicode)
    (svc : Services Coord Quantity) (coordinates : Coord)
    (radius : RadiusArg Quantity) (get_query_payload : bool)
    (pre : list string) (mission : string) (post : list string)
    (query_result : gmap string MissionResult) (st : Client)
    (e : PyExc) (st' : Client) :
  ((forall y, y ∈ pre ->
      exists v, _query_region_maps py svc coordinates radius y
                  get_query_payload st = (Ok v, st)) ->
   _query_region_maps py svc coordinates radius mission get_query_payload st
     = (Err e, st') ->
   _store_query_result_maps py svc query_result (pre ++ mission :: post)
     coordinates radius get_query_payload st = (Err e, st')) /\
  ((forall y, y ∈ pre ->
      exists v, _query_region_catalog py svc coordinates radius y
                  get_query_payload st = (Ok v, st)) ->
   _query_region_catalog py svc coordinates radius mission get_query_payload st
     = (Err e, st') ->
   _store_query_result_catalogs py svc query_result (pre ++ mission :: post)
     coordinates radius get_query_payload st = (Err e, st')).
Proof.
  split; intros Hpre Hx.
  - rewrite store_maps_as_loop. apply store_loop_first_failure.
    + intros y Hy. destruct (Hpre y Hy) as (v & Hv). exists v.
      by rewrite query_region_maps_run in Hv.
    + by rewrite query_region_maps_run in Hx.
  - rewrite store_catalogs_as_loop. apply store_loop_first_failure.
    + intros y Hy. destruct (Hpre y Hy) as (v & Hv). exists v.
      by rewrite query_region_catalog_run in Hv.
    + by rewrite query_region_catalog_run in Hx.
Qed.

(** On the sample deployment the unknown name Gaia, asked for after HST and
    before Planck, makes the maps loop raise its [ValueError]. *)
Lemma store_query_result_first_failure_witness :
  _store_query_result_maps sample_py sample_svc ∅ ["HST"; "Gaia"; "Planck"] tt
    (RadStr "0 arcmin") false fresh_client
  = (Err (Exc ValueError [ObjStr "Input Gaia not available."] None),
     fresh_client).
Proof.
  apply (proj1 (store_query_result_first_failure sample_py sample_svc tt
                  (RadStr "0 arcmin") false ["HST"] "Gaia" ["Planck"] ∅
                  fresh_client _ fresh_client)).
  - intros y [->|[]%not_elem_of_nil]%elem_of_cons.
    exists (MTable sample_hst_table). vm_compute. reflexivity.
  - vm_compute. reflexivity.
Defined.

(** ** File names *)

Lemma str_length_app (a b : string) :
  String.length (a +:+ b) = String.length a + String.length b.
Proof.
  induction a as [|c a IH]; [reflexivity|].
  rewrite str_app_cons. simpl. by rewrite IH.
Qed.

Lemma substring_whole (s : string) : String.substring 0 (String.length s) s = s.
Proof. induction s as [|c s IH]; simpl; [reflexivity | by rewrite IH]. Qed.

Lemma substring_skip (a b : string) (k m : nat) :
  String.substring (String.length a + k) m (a +:+ b) = String.substring k m b.
Proof.
  induction a as [|c a IH]; [reflexivity|].
  rewrite str_app_cons. simpl. exact IH.
Qed.

Lemma substring_add (s : string) :
  forall n a b,
    String.substring n (a + b) s
    = String.substring n a s +:+ String.substring (n + a) b s.
Proof.
  induction s as [|c s IH]; intros n a b.
  - destruct n, a, b; reflexivity.
  - destruct n as [|n].
    + destruct a as [|a]; [reflexivity|].
      simpl. rewrite str_app_cons. f_equal. apply (IH 0).
    + simpl. apply IH.
Qed.

Lemma substring_part (s : string) :
  forall n m, exists after,
    s = String.substring 0 n s +:+ String.substring n m s +:+ after.
Proof.
  induction s as [|c s IH]; intros n m.
  - exists EmptyString. by destruct n, m.
  - destruct n as [|n].
    + destruct m as [|m]; [by exists (String c s)|].
      destruct (IH 0 m) as (after & Hs). exists after.
      simpl. rewrite str_app_nil_l, str_app_cons. f_equal.
      rewrite Hs at 1. by destruct s.
    + destruct (IH n m) as (after & Hs). exists after.
      simpl. rewrite str_app_cons. by f_equal.
Qed.

Lemma length_substring (s : string) :
  forall n m,
    String.length (String.substring n m s) = min m (String.length s - n).
Proof.
  induction s as [|c s IH]; intros n m.
  - destruct n, m; reflexivity.
  - destruct n as [|n].
    + destruct m as [|m]; [reflexivity|]. simpl. by rewrite IH, Nat.sub_0_r.
    + simpl. apply IH.
Qed.

Lemma index_from_ge (s sub : string) :
  forall n m, String.index n sub s = Some m -> n <= m.
Proof.
  induction s as [|c s IH]; intros n m; simpl.
  - destruct n; [|discriminate]. lia.
  - destruct n as [|n]; [lia|].
    destruct (String.index n sub s) as [k|] eqn:Hk; [|discriminate].
    intros [= <-]. apply IH in Hk. lia.
Qed.

Lemma rfind_char_free (c : ascii) (s : string) :
  char_free c s = true -> str_rfind s (String c EmptyString) = None.
Proof.
  induction s as [|d s IH]; [reflexivity|]. simpl.
  intros [Hd Hs]%andb_true_iff. rewrite (IH Hs).
  destruct (ascii_dec c d) as [->|_]; [|reflexivity].
  by rewrite Ascii.eqb_refl in Hd.
Qed.

Lemma rfind_last (c : ascii) (dir file : string) :
  char_free c file = true ->
  str_rfind (dir +:+ String c file) (String c EmptyString)
  = Some (String.length dir).
Proof.
  intros Hfile. induction dir as [|d dir IH].
  - rewrite str_app_nil_l. simpl. rewrite (rfind_char_free c file Hfile).
    destruct (ascii_dec c c) as [_|Hne]; [by destruct file | done].
  - rewrite str_app_cons. simpl. by rewrite IH.
Qed.

(** X8. The file name taken from a URL is what follows its last slash: for a
    URL [dir/file] where [file] has no slash the result is [file] (the empty
    name when the URL ends with a slash), and a URL without any slash raises
    [ValueError]. *)
Theorem extract_file_name_from_url_last_segment :
  (forall dir file,
     char_free "/" file = true ->
     _extract_file_name_from_url (dir +:+ "/" +:+ file) = Ok file) /\
  (forall url,
     char_free "/" url = true ->
     _extract_file_name_from_url url
     = Err (Exc ValueError [ObjStr "substring not found"] None)).
Proof.
  split.
  - intros dir file Hfile. unfold _extract_file_name_from_url, str_rindex.
    change ("/" +:+ file) with (String "/" file).
    rewrite (rfind_last _ dir file Hfile). simpl.
    unfold str_slice_from. rewrite str_length_app. simpl String.length.
    replace (String.length dir + S (String.length file)
             - (String.length dir + 1)) with (String.length file) by lia.
    rewrite substring_skip. simpl. by rewrite substring_whole.
  - intros url Hurl. unfold _extract_file_name_from_url, str_rindex.
    by rewrite (rfind_char_free _ url Hurl).
Qed.

Lemma extract_file_name_from_url_last_segment_witness :
  _extract_file_name_from_url ("http://a/data" +:+ "/" +:+ "p1.fits")
    = Ok "p1.fits" /\
  _extract_file_name_from_url "p1.fits"
    = Err (Exc ValueError [ObjStr "substring not found"] None).
Proof.
  split.
  - apply (proj1 extract_file_name_from_url_last_segment). reflexivity.
  - apply (proj2 extract_file_name_from_url_last_segment). reflexivity.
Defined.

Lemma suffix_slice_shape (cd : string) (start : nat) (suffix file_name : string) :
  suffix <> EmptyString ->
  suffix_slice cd start suffix = Ok file_name ->
  exists stem,
    file_name = stem +:+ suffix /\ stem <> EmptyString /\
    file_name = String.substring start (String.length file_name) cd.
Proof.
  intros Hne. unfold suffix_slice, str_index.
  destruct (String.index (start + 1) suffix cd) as [i|] eqn:Hi; [|discriminate].
  simpl. intros [= <-].
  pose proof (index_from_ge _ _ _ _ Hi) as Hge.
  pose proof (String.index_correct1 _ _ _ _ Hi) as Hsuf.
  unfold str_slice.
  replace (i + String.length suffix - start)
    with ((i - start) + String.length suffix) by lia.
  rewrite substring_add. replace (start + (i - start)) with i by lia.
  rewrite Hsuf. exists (String.substring start (i - start) cd).
  assert (String.length (String.substring start (i - start) cd) = i - start)
    as Hlen.
  { rewrite length_substring.
    assert (String.length suffix <= String.length cd - i).
    { rewrite <- Hsuf at 1. rewrite length_substring. lia. }
    assert (0 < String.length suffix) by (destruct suffix; [done | simpl; lia]).
    lia. }
  split; [reflexivity|]. split.
  - intros Hempty. rewrite Hempty in Hlen. simpl in Hlen. lia.
  - rewrite str_length_app, Hlen.
    rewrite substring_add. replace (start + (i - start)) with i by lia.
    by rewrite Hsuf.
Qed.

(** X9. Whenever the extraction from the response headers succeeds, the file
    name is a non-empty stem followed by one of the suffixes .fits, .FTZ or
    .tar, and it is a contiguous part of the Content-Disposition value: a
    bare suffix or an empty name is never returned. *)
Theorem extract_file_name_has_stem_and_suffix
    (headers : list (string * string)) (file_name : string) :
  _extract_file_name_from_response_header headers = Ok file_name ->
  exists stem suffix cd before after,
    file_name = stem +:+ suffix /\
    stem <> EmptyString /\
    suffix ∈ [FITS_STRING; FTZ_STRING; TAR_STRING] /\
    headers_get headers "Content-Disposition" = Some cd /\
    cd = before +:+ file_name +:+ after.
Proof.
  unfold _extract_file_name_from_response_header.
  destruct (headers_get headers "Content-Disposition") as [cd|]; [|discriminate].
  destruct (str_index cd "filename=" 0) as [i|]; [|discriminate]. simpl.
  destruct (str_getitem cd _) as [c|]; [|discriminate]. simpl.
  set (start := if Ascii.eqb c dquote then _ else _).
  assert (forall suffix,
            suffix <> EmptyString ->
            suffix ∈ [FITS_STRING; FTZ_STRING; TAR_STRING] ->
            suffix_slice cd start suffix = Ok file_name ->
            exists stem suffix cd' before after,
              file_name = stem +:+ suffix /\ stem <> EmptyString /\
              suffix ∈ [FITS_STRING; FTZ_STRING; TAR_STRING] /\
              Some cd = Some cd' /\ cd' = before +:+ file_name +:+ after)
    as Hcase.
  { intros suffix Hne Hin Hslice.
    destruct (suffix_slice_shape _ _ _ _ Hne Hslice) as (stem & Hname & Hstem & Hpart).
    destruct (substring_part cd start (String.length file_name))
      as (after & Hcd).
    exists stem, suffix, cd, (String.substring 0 start cd), after.
    rewrite <- Hpart in Hcd. done. }
  destruct (str_contains FITS_STRING _).
  { apply Hcase; [done|]. apply elem_of_cons; by left. }
  destruct (str_contains FTZ_STRING _).
  { apply Hcase; [done|]. apply elem_of_cons; right. apply elem_of_cons; by left. }
  destruct (str_contains TAR_STRING _); [|discriminate].
  apply Hcase; [done|]. do 2 (apply elem_of_cons; right). apply elem_of_cons; by left.
Qed.

Lemma extract_file_name_has_stem_and_suffix_witness :
  exists stem suffix cd before after,
    "n1.FTZ" = stem +:+ suffix /\
    stem <> EmptyString /\
    suffix ∈ [FITS_STRING; FTZ_STRING; TAR_STRING] /\
    headers_get (header_of "attachment; filename=n1.FTZ")
      "Content-Disposition" = Some cd /\
    cd = before +:+ "n1.FTZ" +:+ after.
Proof.
  apply (extract_file_name_has_stem_and_suffix
           (header_of "attachment; filename=n1.FTZ") "n1.FTZ").
  reflexivity.
Defined.

Lemma headers_get_none (headers : list (string * string)) (name_ : string) :
  (forall k v, (k, v) ∈ headers -> lower k <> lower name_) ->
  headers_get headers name_ = None.
Proof.
  induction headers as [|[k v] headers IH]; intros Hnone; [reflexivity|].
  simpl. destruct (String.eqb_spec (lower k) (lower name_)) as [Heq|_].
  - exfalso. apply (Hnone k v); [by apply elem_of_cons; left | done].
  - apply IH. intros k' v' Hin. apply (Hnone k' v').
    by apply elem_of_cons; right.
Qed.

Lemma headers_get_first (pre post : list (string * string)) (k v name_ : string) :
  (forall k' v', (k', v') ∈ pre -> lower k' <> lower name_) ->
  lower k = lower name_ ->
  headers_get (pre ++ (k, v) :: post) name_ = Some v.
Proof.
  intros Hpre Hk. induction pre as [|[k' v'] pre IH]; simpl.
  - by rewrite Hk, String.eqb_refl.
  - destruct (String.eqb_spec (lower k') (lower name_)) as [Heq|_].
    + exfalso. apply (Hpre k' v'); [by apply elem_of_cons; left | done].
    + apply IH. intros k2 v2 Hin. apply (Hpre k2 v2).
      by apply elem_of_cons; right.
Qed.

(** X10. The extraction reads the first header named Content-Disposition,
    whatever the letter case of the header name, and nothing else of the
    headers. Without such a header it raises [AttributeError], and with a
    value that has no [filename=] it raises the [ValueError] of the failed
    search. *)
Theorem extract_file_name_header_lookup :
  (forall headers,
     (forall k v, (k, v) ∈ headers -> lower k <> "content-disposition") ->
     _extract_file_name_from_response_header headers
     = Err (Exc AttributeError
              [ObjStr "'NoneType' object has no attribute 'index'"] None)) /\
  (forall pre k v post,
     (forall k' v', (k', v') ∈ pre -> lower k' <> "content-disposition") ->
     lower k = "content-disposition" ->
     _extract_file_name_from_response_header (pre ++ (k, v) :: post)
     = _extract_file_name_from_response_header (header_of v)) /\
  (forall v,
     str_contains "filename=" v = false ->
     _extract_file_name_from_response_header (header_of v)
     = Err (Exc ValueError [ObjStr "substring not found"] None)).
Proof.
  split; [|split].
  - intros headers Hnone. unfold _extract_file_name_from_response_header.
    by rewrite (headers_get_none headers "Content-Disposition" Hnone).
  - intros pre k v post Hpre Hk.
    unfold _extract_file_name_from_response_header.
    by rewrite (headers_get_first pre post k v "Content-Disposition" Hpre Hk).
  - intros v Hv. unfold _extract_file_name_from_response_header. simpl.
    unfold str_index. unfold str_contains in Hv.
    by destruct (String.index 0 "filename=" v).
Qed.

Lemma extract_file_name_header_lookup_witness :
  _extract_file_name_from_response_header
    [("Content-Type", "application/fits");
     ("CONTENT-DISPOSITION", "attachment; filename=n1.FTZ");
     ("Content-Disposition", "attachment; filename=n2.tar")]
  = Ok "n1.FTZ".
Proof.
  etransitivity.
  - apply (proj1 (proj2 extract_file_name_header_lookup)
             [("Content-Type", "application/fits")] "CONTENT-DISPOSITION"
             "attachment; filename=n1.FTZ"
             [("Content-Disposition", "attachment; filename=n2.tar")]).
    + intros k' v' [[= -> ->]|[]%not_elem_of_nil]%elem_of_cons. discriminate.
    + reflexivity.
  - reflexivity.
Defined.

(** ** Herschel archives, again *)

Lemma index_char_free (c : ascii) (s : string) :
  char_free c s = true -> String.index 0 (String c EmptyString) s = None.
Proof.
  induction s as [|d s IH]; [reflexivity|].
  intros [Hd Hs]%andb_true_iff. cbn [String.index].
  assert (String.prefix (String c EmptyString) (String d s) = false) as ->.
  { simpl. destruct (ascii_dec c d) as [->|_]; [|reflexivity].
    by rewrite Ascii.eqb_refl in Hd. }
  by rewrite (IH Hs).
Qed.

Lemma index_first_char (c : ascii) (top rest : string) :
  char_free c top = true ->
  String.index 0 (String c EmptyString) (top +:+ String c rest)
  = Some (String.length top).
Proof.
  induction top as [|d top IH]; intros Htop.
  - rewrite str_app_nil_l. cbn [String.index].
    assert (String.prefix (String c EmptyString) (String c rest) = true) as ->.
    { simpl. destruct (ascii_dec c c); [by destruct rest | done]. }
    reflexivity.
  - simpl in Htop. apply andb_true_iff in Htop as [Hd Htop].
    rewrite str_app_cons. cbn [String.index].
    assert (String.prefix (String c EmptyString)
              (String d (top +:+ String c rest)) = false) as ->.
    { simpl. destruct (ascii_dec c d) as [->|_]; [|reflexivity].
      by rewrite Ascii.eqb_refl in Hd. }
    by rewrite (IH Htop).
Qed.

(** X12. Removing the extra Herschel directory strips exactly the first
    component of the member name, up to the first slash: for [top/rest] with
    a slash-free [top] the call is [os.renames] from [top/rest] to [rest],
    both under the absolute directory path, followed by the return of
    [rest], whatever slashes [rest] has. A name without a slash raises
    [ValueError] before anything is renamed. *)
Theorem remove_extra_herschel_directory_first_component {Coord Quantity}
    (svc : Services Coord Quantity) (directory_path : string) (fs : FS) :
  (forall top rest,
     char_free "/" top = true ->
     _remove_extra_herschel_directory svc (top +:+ "/" +:+ rest)
       directory_path fs
     = (os_renames
          (os_path_join (os_path_abspath svc directory_path)
             (top +:+ "/" +:+ rest))
          (os_path_join (os_path_abspath svc directory_path) rest) ;;;
        ret rest) fs) /\
  (forall member_name,
     char_free "/" member_name = true ->
     _remove_extra_herschel_directory svc member_name directory_path fs
     = (Err (Exc ValueError [ObjStr "substring not found"] None), fs)).
Proof.
  split.
  - intros top rest Htop. unfold _remove_extra_herschel_directory.
    unfold bind at 1, lift, str_index.
    change ("/" +:+ rest) with (String "/" rest).
    rewrite (index_first_char _ top rest Htop).
    assert (str_slice_from (top +:+ String "/" rest) (String.length top + 1)
            = rest) as ->.
    { unfold str_slice_from. rewrite str_length_app. simpl String.length.
      replace (String.length top + S (String.length rest)
               - (String.length top + 1)) with (String.length rest) by lia.
      rewrite substring_skip. simpl. apply substring_whole. }
    reflexivity.
  - intros member_name Hname. unfold _remove_extra_herschel_directory.
    unfold bind, lift, str_index.
    by rewrite (index_char_free _ member_name Hname).
Qed.

(** The member 1342/level2/hspire_psw.fits, extracted under Maps/HERSCHEL,
    becomes level2/hspire_psw.fits there. *)
Lemma remove_extra_herschel_directory_first_component_witness :
  let fs : FS := {[ "Maps/HERSCHEL/1342/level2/hspire_psw.fits" ]} in
  let run := _remove_extra_herschel_directory sample_svc
               ("1342" +:+ "/" +:+ "level2/hspire_psw.fits") "Maps/HERSCHEL/"
               fs in
  run.1 = Ok "level2/hspire_psw.fits".
Proof.
  intros fs run. unfold run.
  rewrite (proj1 (remove_extra_herschel_directory_first_component sample_svc
                    "Maps/HERSCHEL/" fs) "1342" "level2/hspire_psw.fits"
             eq_refl).
  reflexivity.
Defined.



(** ** Downloading the products of a mission *)

Lemma lift_ok_inv {St A} (r : result A) (st : St) a st' :
  lift r st = (Ok a, st') -> r = Ok a /\ st' = st.
Proof. unfold lift. intros H. by inversion H. Qed.

Lemma for_each_invariant {St A B} (I : list A -> B -> Prop)
    (body : B -> A -> M St B) (xs : list A) :
  (forall done x acc st acc' st',
     I done acc -> body acc x st = (Ok acc', st') -> I (done ++ [x]) acc') ->
  forall done acc st r st',
    I done acc -> for_each xs acc body st = (Ok r, st') -> I (done ++ xs) r.
Proof.
  intros Hstep. induction xs as [|x xs IH]; intros done acc st r st' HI Hrun.
  - inversion Hrun; subst. by rewrite app_nil_r.
  - simpl in Hrun. apply bind_ok_inv in Hrun as (acc1 & st1 & Hbody & Hrest).
    replace (done ++ x :: xs) with ((done ++ [x]) ++ xs)
      by (by rewrite <- app_assoc).
    eapply IH; [|exact Hrest]. eapply Hstep; eauto.
Qed.

Lemma table_column_length (t : Table) (column : string) (cells : list string) :
  table_column t column = Ok cells -> length cells = length (rows t).
Proof.
  unfold table_column. destruct (column_index column (colnames t));
    [|discriminate].
  intros [= <-]. apply length_map.
Qed.

Lemma omap_lookup_seq {A} (pre l : list A) :
  omap (fun i => (pre ++ l) !! i) (seq (length pre) (length l)) = l.
Proof.
  revert pre. induction l as [|x l IH]; intros pre; [reflexivity|].
  simpl. rewrite list_lookup_middle by reflexivity. f_equal.
  replace (pre ++ x :: l) with ((pre ++ [x]) ++ l) by (by rewrite <- app_assoc).
  replace (S (length pre)) with (length (pre ++ [x]))
    by (rewrite length_app; simpl; lia).
  apply IH.
Qed.

Section DownloaderFacts.
Context {Coord Quantity : Type} (svc : Services Coord Quantity).
Variable net : Transport.

Lemma download_single_ok product_url directory_path w entry w' :
  download_single net product_url directory_path w = (Ok entry, w') ->
  exists h, entry = PFile h.
Proof.
  unfold download_single. intros H.
  repeat (apply bind_ok_inv in H as (? & ? & _ & H)).
  inversion H. eauto.
Qed.

(** A turn of the row loop that ends well stores an entry under the
    observation id of its row: the opened files by filter for Herschel, an
    opened file otherwise. *)
Lemma download_row_ok maps_table mission mission_directory maps index w
    maps' w' :
  download_row svc net maps_table mission mission_directory maps index w
    = (Ok maps', w') ->
  exists observation_id entry,
    column_cells maps_table OBSERVATION_ID_STRING !! index
      = Some observation_id /\
    maps' = <[observation_id := entry]> maps /\
    (lower mission = HERSCHEL_STRING <-> exists m, entry = PFilters m).
Proof.
  unfold download_row. intros H.
  apply bind_ok_inv in H as (urls & w1 & _ & H).
  apply bind_ok_inv in H as (product_url & w2 & _ & H).
  apply bind_ok_inv in H as (ids & w3 & Hids & H).
  apply bind_ok_inv in H as (observation_id & w4 & Hid & H).
  apply bind_ok_inv in H as (u & w5 & _ & H).
  apply bind_ok_inv in H as (entry & w6 & Hentry & H).
  apply bind_ok_inv in H as (u' & w7 & _ & H).
  inversion H; subst maps'.
  exists observation_id, entry.
  unfold lift in Hids, Hid. inversion Hids as [[Hcol Hw]].
  inversion Hid as [[Hcell Hw']].
  split.
  - unfold column_cells. rewrite Hcol. unfold list_getitem in Hcell.
    by destruct (ids !! index); inversion Hcell.
  - split; [reflexivity|].
    destruct (String.eqb_spec (lower mission) HERSCHEL_STRING) as [Hh|Hh].
    + repeat (apply bind_ok_inv in Hentry as (? & ? & _ & Hentry)).
      inversion Hentry. split; eauto.
    + apply download_single_ok in Hentry as (h & ->).
      split; [contradiction | intros (m & Hm); discriminate].
Qed.

End DownloaderFacts.

Lemma omap_lookup_nil {A} (xs : list nat) :
  omap (fun i => ([] : list A) !! i) xs = [].
Proof. induction xs as [|x xs IH]; [reflexivity | exact IH]. Qed.

Lemma column_cells_no_rows (t : Table) (column : string) :
  rows t = [] -> column_cells t column = [].
Proof.
  intros Hrows. unfold column_cells, table_column.
  destruct (column_index column (colnames t)); [|reflexivity].
  by rewrite Hrows.
Qed.

Lemma column_cells_seq (t : Table) (column : string) :
  omap (fun i => column_cells t column !! i) (seq 0 (length (rows t)))
  = column_cells t column.
Proof.
  unfold column_cells.
  destruct (table_column t column) as [cells|e] eqn:Hcol.
  - rewrite <- (table_column_length _ _ _ Hcol).
    apply (omap_lookup_seq [] cells).
  - apply omap_lookup_nil.
Qed.

(** X14. A table without rows downloads nothing: when it has a product_url
    column the result is the empty dictionary and neither the file system
    nor the standard output is touched, so no mission directory is made;
    when it has no such column the look-up of the column raises, again
    without any effect. *)
Theorem get_maps_for_mission_no_rows {Coord Quantity}
    (svc : Services Coord Quantity) (net : Transport) (maps_table : Table)
    (mission download_folder : string) (w : World) :
  rows maps_table = [] ->
  (is_Some (column_index PRODUCT_URL_STRING (colnames maps_table)) ->
   _get_maps_for_mission svc net maps_table mission download_folder w
   = (Ok ∅, w)) /\
  (column_index PRODUCT_URL_STRING (colnames maps_table) = None ->
   _get_maps_for_mission svc net maps_table mission download_folder w
   = (Err (Exc CollaboratorError [ObjStr "KeyError: product_url"] None), w)).
Proof.
  intros Hrows. unfold _get_maps_for_mission, bind at 1, lift, table_column.
  split.
  - intros [j Hj]. rewrite Hj, Hrows. reflexivity.
  - intros Hnone. by rewrite Hnone.
Qed.

Lemma get_maps_for_mission_no_rows_witness :
  _get_maps_for_mission sample_svc sample_net
    {| colnames := ["observation_id"; "product_url"]; rows := [] |}
    "XMM-EPIC" "Maps" fresh_world
  = (Ok ∅, fresh_world).
Proof.
  apply (proj1 (get_maps_for_mission_no_rows sample_svc sample_net
                  {| colnames := ["observation_id"; "product_url"];
                     rows := [] |} "XMM-EPIC" "Maps" fresh_world eq_refl)).
  by eexists.
Defined.

(** X15. When the download of a mission ends well, the dictionary it returns
    has exactly the observation ids of the table as keys (rows with the same
    id share one entry), and its values are dictionaries by filter exactly
    when the mission is Herschel, letter case aside, and opened files
    otherwise. *)
Theorem get_maps_for_mission_keys {Coord Quantity}
    (svc : Services Coord Quantity) (net : Transport) (maps_table : Table)
    (mission download_folder : string) (w : World)
    (maps : gmap string Product) (w' : World) :
  _get_maps_for_mission svc net maps_table mission download_folder w
    = (Ok maps, w') ->
  dom maps = list_to_set (column_cells maps_table OBSERVATION_ID_STRING) /\
  forall observation_id entry,
    maps !! observation_id = Some entry ->
    (lower mission = HERSCHEL_STRING <-> exists m, entry = PFilters m).
Proof.
  unfold _get_maps_for_mission. intros H.
  apply bind_ok_inv in H as (urls & w1 & Hurls & H).
  apply lift_ok_inv in Hurls as [Hurls ->].
  destruct (Nat.ltb_spec 0 (length urls)) as [Hpos|Hzero].
  - apply bind_ok_inv in H as (mission_directory & w2 & _ & H).
    apply bind_ok_inv in H as (u & w3 & _ & H).
    apply bind_ok_inv in H as (maps1 & w4 & Hloop & H).
    apply bind_ok_inv in H as (u' & w5 & _ & H).
    inversion H; subst maps1.
    pose (I := fun (done : list nat) (m : gmap string Product) =>
                 dom m = list_to_set
                           (omap (fun i => column_cells maps_table
                                             OBSERVATION_ID_STRING !! i) done)
                 /\ forall k v, m !! k = Some v ->
                      (lower mission = HERSCHEL_STRING
                       <-> exists f, v = PFilters f)).
    assert (I ([] ++ seq 0 (length (rows maps_table))) maps) as [Hdom Hkind].
    { eapply (for_each_invariant I); [| |exact Hloop].
      - intros done x acc st acc' st' [Hd Hk] Hrow.
        apply download_row_ok in Hrow as (id & entry & Hid & -> & Hentry).
        split.
        + rewrite dom_insert_L, Hd, omap_app, list_to_set_app_L. simpl.
          rewrite Hid. simpl.
          by rewrite union_empty_r_L, (comm_L (∪)).
        + intros k v. destruct (decide (id = k)) as [->|Hne].
          * rewrite lookup_insert_eq. by intros [= <-].
          * rewrite lookup_insert_ne by done. apply Hk.
      - split; [by rewrite dom_empty_L | intros k v Hk].
        by rewrite lookup_empty in Hk. }
    split; [|exact Hkind].
    rewrite Hdom. simpl. by rewrite column_cells_seq.
  - inversion H; subst.
    assert (rows maps_table = []) as Hrows.
    { apply table_column_length in Hurls.
      destruct (rows maps_table); [done | simpl in *; lia]. }
    split.
    + by rewrite dom_empty_L, (column_cells_no_rows _ _ Hrows).
    + intros k v Hk. by rewrite lookup_empty in Hk.
Qed.

Lemma get_maps_for_mission_keys_witness :
  let run := _get_maps_for_mission sample_svc sample_net sample_xmm_table
               "XMM-EPIC" "Maps" fresh_world in
  run.1 = Ok sample_xmm_products /\
  dom sample_xmm_products
    = list_to_set (column_cells sample_xmm_table OBSERVATION_ID_STRING).
Proof.
  intros run.
  assert (run = (Ok sample_xmm_products, run.2)) as Hrun
    by (vm_compute; reflexivity).
  split; [by rewrite Hrun|].
  exact (proj1 (get_maps_for_mission_keys sample_svc sample_net
                  sample_xmm_table "XMM-EPIC" "Maps" fresh_world
                  sample_xmm_products run.2 Hrun)).
Defined.

(** ** [get_maps] *)

Lemma sanatize_input_mission_state {Coord Quantity}
    (svc : Services Coord Quantity) {St} (selector : SelectorArg) (st : St) :
  (_sanatize_input_mission svc selector st).2 = st.
Proof.
  destruct selector as [l|s|]; simpl; [reflexivity| |reflexivity].
  destruct (String.eqb (lower s) ALL_STRING); [|reflexivity].
  by rewrite list_maps_run.
Qed.

Section GetMapsFacts.
Context {Coord Quantity : Type} (py : Unicode) (svc : Services Coord Quantity).
Variable net : Transport.

(** The inner loop stores the products of the key when the key is selected
    and leaves the dictionary alone otherwise. *)
Lemma get_maps_match_ok entries download_folder missions maps query_mission w
    maps' w' :
  get_maps_match py svc net entries download_folder missions maps
    query_mission w = (Ok maps', w') ->
  if selected_key py missions query_mission
  then exists products, maps' = <[query_mission := products]> maps
  else maps' = maps.
Proof.
  unfold selected_key. induction missions as [|mission rest IH]; simpl.
  - rewrite andb_false_r. by intros [= <-].
  - destruct (String.eqb (lower query_mission) INTEGRAL_STRING) eqn:Hint.
    + simpl. by intros [= <-].
    + simpl in *.
      destruct (String.eqb (str_lower py query_mission)
                  (str_lower py mission)); simpl.
      * intros H. repeat (apply bind_ok_inv in H as (? & ? & _ & H)).
        inversion H. eauto.
      * exact IH.
Qed.

Lemma selected_key_spec missions query_mission :
  selected_key py missions query_mission = true <->
  lower query_mission <> INTEGRAL_STRING /\
  exists mission,
    mission ∈ missions /\ str_lower py query_mission = str_lower py mission.
Proof.
  unfold selected_key. rewrite andb_true_iff, negb_true_iff, existsb_exists.
  split.
  - intros [Hint (mission & Hin & Heq)]. split.
    + by apply String.eqb_neq.
    + exists mission. split; [by apply list_elem_of_In|].
      by apply String.eqb_eq.
  - intros [Hint (mission & Hin & Heq)]. split.
    + by apply String.eqb_neq.
    + exists mission. split; [by apply list_elem_of_In|].
      by apply String.eqb_eq.
Qed.

Lemma get_maps_inv entries selector download_folder w maps w' :
  get_maps py svc net (TLTables entries) selector download_folder w
    = (Ok maps, w') ->
  exists missions w2,
    _sanatize_input_mission svc selector w = (Ok missions, w) /\
    for_each entries.*1 ∅
      (get_maps_match py svc net entries download_folder missions) w
      = (Ok maps, w2) /\
    w' = {| files := files w2;
            stdout := stdout w2
                        ++ [get_maps_last_line svc entries download_folder] |}.
Proof.
  unfold get_maps. intros H.
  apply bind_ok_inv in H as (entries' & w1 & Htl & H).
  apply lift_ok_inv in Htl as [[= <-] ->].
  apply bind_ok_inv in H as (missions & w1 & Hsel & H).
  pose proof (sanatize_input_mission_state svc selector w) as Hst.
  rewrite Hsel in Hst. simpl in Hst. subst w1.
  apply bind_ok_inv in H as (maps1 & w2 & Hloop & H).
  apply bind_ok_inv in H as (u & w3 & Hprint & H).
  inversion H; subst. exists missions, w2.
  split; [exact Hsel|]. split; [exact Hloop|].
  unfold get_maps_last_line.
  destruct (0 <? length entries)%nat; unfold print in Hprint;
    by inversion Hprint.
Qed.

(** The keys stored by the outer loop are the selected keys. *)
Lemma get_maps_loop_dom entries download_folder missions keys w maps w' :
  for_each keys ∅ (get_maps_match py svc net entries download_folder missions)
    w = (Ok maps, w') ->
  forall key,
    key ∈ dom maps <->
    key ∈ keys /\ lower key <> INTEGRAL_STRING /\
    exists mission,
      mission ∈ missions /\ str_lower py key = str_lower py mission.
Proof.
  intros Hloop.
  pose (I := fun (done : list string) (m : gmap string (gmap string Product)) =>
               dom m = list_to_set
                         (filter (fun k => selected_key py missions k = true)
                            done)).
  assert (I ([] ++ keys) maps) as Hdom.
  { eapply (for_each_invariant I); [| |exact Hloop].
    - intros done x acc st acc' st' Hd Hstep. unfold I in *.
      apply get_maps_match_ok in Hstep. rewrite filter_app.
      destruct (selected_key py missions x) eqn:Hx.
      + destruct Hstep as (products & ->).
        rewrite filter_cons_True, filter_nil by done.
        rewrite dom_insert_L, Hd, list_to_set_app_L. simpl.
        by rewrite union_empty_r_L, (comm_L (∪)).
      + subst acc'.
        rewrite filter_cons_False, filter_nil by (by rewrite Hx).
        by rewrite app_nil_r.
    - unfold I. by rewrite filter_nil, dom_empty_L. }
  unfold I in Hdom. simpl in Hdom. intros key.
  rewrite Hdom, elem_of_list_to_set, list_elem_of_filter, selected_key_spec.
  tauto.
Qed.

End GetMapsFacts.

(** X16. When [get_maps] ends well, the missions it has downloaded are
    exactly the keys of the table list that are not INTEGRAL and whose
    lower-cased form, as [str.lower] gives it, is that of a selected mission:
    INTEGRAL never gets an entry, even when it is selected, and nothing
    outside the table list does. *)
Theorem get_maps_keys {Coord Quantity} (py : Unicode)
    (svc : Services Coord Quantity) (net : Transport)
    (entries : list (string * Table)) (selector : SelectorArg)
    (download_folder : string) (w : World)
    (maps : gmap string (gmap string Product)) (w' : World) :
  get_maps py svc net (TLTables entries) selector download_folder w
    = (Ok maps, w') ->
  exists missions,
    _sanatize_input_mission svc selector w = (Ok missions, w) /\
    forall key,
      key ∈ dom maps <->
      key ∈ entries.*1 /\ lower key <> INTEGRAL_STRING /\
      exists mission,
        mission ∈ missions /\ str_lower py key = str_lower py mission.
Proof.
  intros H. apply get_maps_inv in H as (missions & w2 & Hsel & Hloop & _).
  exists missions. split; [exact Hsel|].
  intros key. exact (get_maps_loop_dom py svc net _ _ _ _ _ _ _ Hloop key).
Qed.

(** On the sample table list, with XMM-EPIC and INTEGRAL selected, only
    XMM-EPIC is downloaded. *)
Lemma get_maps_keys_witness :
  let run := get_maps sample_py sample_svc sample_net
               (TLTables sample_table_list)
               (SelList ["xmm-epic"; "integral"]) "Maps" fresh_world in
  run.1 = Ok {[ "XMM-EPIC" := sample_xmm_products ]} /\
  forall key,
    key ∈ dom ({[ "XMM-EPIC" := sample_xmm_products ]}
                : gmap string (gmap string Product)) ->
    lower key <> INTEGRAL_STRING.
Proof.
  intros run.
  assert (run = (Ok {[ "XMM-EPIC" := sample_xmm_products ]}, run.2)) as Hrun
    by (vm_compute; reflexivity).
  split; [by rewrite Hrun|].
  destruct (get_maps_keys sample_py sample_svc sample_net sample_table_list
              (SelList ["xmm-epic"; "integral"]) "Maps" fresh_world
              _ _ Hrun) as (missions & _ & Hkeys).
  intros key Hkey. by apply Hkeys in Hkey as (_ & Hint & _).
Defined.

(** X17. [get_maps] validates its arguments before it does anything: a first
    argument that is no table list raises [ValueError], and so does a
    selector that is neither a string nor a list; in both cases nothing is
    downloaded, no directory is made and nothing is printed. *)
Theorem get_maps_validates_first {Coord Quantity} (py : Unicode)
    (svc : Services Coord Quantity) (net : Transport)
    (entries : list (string * Table)) (selector : SelectorArg)
    (download_folder : string) (w : World) :
  get_maps py svc net TLOther selector download_folder w
    = (Err (Exc ValueError
              [ObjStr "Query_table_list must be an astropy.utils.TableList"]
              None), w) /\
  get_maps py svc net (TLTables entries) SelOther download_folder w
    = (Err (Exc ValueError
              [ObjStr "Mission must be either a string or a list of missions"]
              None), w).
Proof. split; reflexivity. Qed.

(** X18. When [get_maps] ends well, the last thing it prints is "No maps
    found" if the table list is empty and "Maps available at" with the
    absolute download folder otherwise; the second line is printed for every
    non-empty table list, also when no mission of it was selected and
    nothing was downloaded. *)
Theorem get_maps_last_message {Coord Quantity} (py : Unicode)
    (svc : Services Coord Quantity) (net : Transport)
    (entries : list (string * Table)) (selector : SelectorArg)
    (download_folder : string) (w : World)
    (maps : gmap string (gmap string Product)) (w' : World) :
  get_maps py svc net (TLTables entries) selector download_folder w
    = (Ok maps, w') ->
  exists printed,
    stdout w' = printed ++ [get_maps_last_line svc entries download_folder] /\
    (entries = [] ->
     get_maps_last_line svc entries download_folder
       = "No maps found" +:+ newline /\ maps = ∅) /\
    (entries <> [] ->
     get_maps_last_line svc entries download_folder
       = "Maps available at " +:+ os_path_abspath svc download_folder
           +:+ newline).
Proof.
  intros H. apply get_maps_inv in H as (missions & w2 & _ & Hloop & ->).
  exists (stdout w2). split; [reflexivity|]. split.
  - intros ->. split; [reflexivity|]. simpl in Hloop. by inversion Hloop.
  - intros Hne. unfold get_maps_last_line.
    destruct entries; [done|]. simpl. by rewrite str_app_assoc.
Qed.

(** With HST alone in the table list and only Planck selected, nothing is
    downloaded and the maps are still announced. *)
Lemma get_maps_last_message_witness :
  let run := get_maps sample_py sample_svc sample_net
               (TLTables [("HST", sample_hst_table)]) (SelStr "Planck")
               "Maps" fresh_world in
  run = (Ok ∅, {| files := ∅;
                  stdout := ["Maps available at Maps" +:+ newline] |}) /\
  exists printed,
    stdout run.2
    = printed ++ [get_maps_last_line sample_svc [("HST", sample_hst_table)]
                    "Maps"].
Proof.
  intros run.
  assert (run = (Ok ∅, {| files := ∅;
                          stdout := ["Maps available at Maps" +:+ newline] |}))
    as Hrun by (vm_compute; reflexivity).
  split; [exact Hrun|].
  destruct (get_maps_last_message sample_py sample_svc sample_net
              [("HST", sample_hst_table)] (SelStr "Planck") "Maps" fresh_world
              _ _ Hrun) as (printed & Hout & _).
  exists printed. by rewrite Hrun.
Defined.

(** ** From a region query to the download *)

Lemma sanatize_input_mission_same {Coord Quantity}
    (svc : Services Coord Quantity) {St1 St2} (selector : SelectorArg)
    (st1 : St1) (st2 : St2) :
  (_sanatize_input_mission svc selector st1).1
  = (_sanatize_input_mission svc selector st2).1.
Proof.
  destruct selector as [l|s|]; simpl; [reflexivity| |reflexivity].
  destruct (String.eqb (lower s) ALL_STRING); [|reflexivity].
  by rewrite !list_maps_run.
Qed.

Lemma query_region_maps_tables_inv {Coord Quantity} (py : Unicode)
    (svc : Services Coord Quantity) position radius selector st m st' :
  query_region_maps py svc position radius selector false st
    = (Ok (PyTableList m), st') ->
  exists missions coordinates radius' st1,
    _sanatize_input_mission svc selector st = (Ok missions, st1) /\
    _store_query_result_maps py svc ∅ missions coordinates radius' false st1
      = (Ok m, st').
Proof.
  unfold query_region_maps. intros H.
  apply bind_ok_inv in H as (pos & s1 & Hpos & H).
  apply lift_ok_inv in Hpos as [_ ->].
  apply bind_ok_inv in H as (rad & s2 & Hrad & H).
  apply lift_ok_inv in Hrad as [_ ->].
  apply bind_ok_inv in H as (missions & s3 & Hsel & H).
  apply bind_ok_inv in H as (coordinates & s4 & Hc & H).
  apply lift_ok_inv in Hc as [_ ->].
  apply bind_ok_inv in H as (m' & s5 & Hstore & H).
  inversion H; subst.
  exists missions, coordinates, rad, s3. split; [exact Hsel | exact Hstore].
Qed.

(** X19. The region query and [get_maps] fit together for mission names in
    ASCII: when the names the selector stands for are ASCII, a maps query
    for tables returns the table list [m], and [get_maps] is run with the
    same selector on a table list with the keys of [m], the missions it
    downloads are exactly the keys of [m] other than INTEGRAL. The
    upper-cased keys of the query are matched against the selected names by
    their lower-cased forms, so no stored mission is missed. *)
Theorem region_query_feeds_get_maps {Coord Quantity} (py : Unicode)
    (svc : Services Coord Quantity) (net : Transport)
    (position : PositionArg Coord) (radius : RadiusArg Quantity)
    (selector : SelectorArg) (st : Client)
    (m : gmap string MissionResult) (st' : Client)
    (entries : list (string * Table)) (download_folder : string) (w : World)
    (maps : gmap string (gmap string Product)) (w' : World) :
  (forall missions st1,
     _sanatize_input_mission svc selector st = (Ok missions, st1) ->
     forall x, x ∈ missions -> is_ascii x = true) ->
  query_region_maps py svc position radius selector false st
    = (Ok (PyTableList m), st') ->
  (forall key, key ∈ entries.*1 <-> key ∈ dom m) ->
  get_maps py svc net (TLTables entries) selector download_folder w
    = (Ok maps, w') ->
  forall key,
    key ∈ dom maps <-> key ∈ dom m /\ lower key <> INTEGRAL_STRING.
Proof.
  intros Hascii Hquery Hkeys Hget key.
  apply query_region_maps_tables_inv in Hquery
    as (missions & coordinates & radius' & st1 & Hsel & Hstore).
  apply get_maps_inv in Hget as (missions' & w2 & Hsel' & Hloop & _).
  assert (missions' = missions) as ->.
  { pose proof (sanatize_input_mission_same svc selector st w) as Hsame.
    rewrite Hsel, Hsel' in Hsame. simpl in Hsame. congruence. }
  rewrite (get_maps_loop_dom py svc net _ _ _ _ _ _ _ Hloop key), Hkeys.
  split; [tauto|].
  intros [Hin Hint]. split; [done|]. split; [done|].
  rewrite store_maps_as_loop in Hstore.
  apply store_loop_rows in Hstore as [Hentries _].
  apply elem_of_dom in Hin as [v Hv].
  destruct (Hentries key v Hv) as (_ & mission & Hmission & <- & _).
  exists mission. split; [done|].
  apply str_lower_upper. by apply (Hascii missions st1 Hsel).
Qed.

(** ** Diagnostics on the client *)

(** X20. The client keeps the diagnostics of the most recent parse failure:
    after a body fails to decode, a later body that decodes is returned as a
    table and leaves the stored response and exception of the failure in
    place, and a later failure replaces both. *)
Theorem parse_xml_table_keeps_latest_failure {Coord Quantity}
    (svc : Services Coord Quantity) (failed : Response) (ex : PyExc)
    (st : Client) :
  votable_to_table svc (content failed) = Err ex ->
  let st1 := (_parse_xml_table svc failed st).2 in
  st1 = {| self_response := Some failed; self_table_parse_error := Some ex |} /\
  (forall good t,
     votable_to_table svc (content good) = Ok t ->
     _parse_xml_table svc good st1 = (Ok t, st1)) /\
  (forall failed' ex',
     votable_to_table svc (content failed') = Err ex' ->
     (_parse_xml_table svc failed' st1).2
     = {| self_response := Some failed';
          self_table_parse_error := Some ex' |}).
Proof.
  intros Hfail st1.
  assert (st1 = {| self_response := Some failed;
                   self_table_parse_error := Some ex |}) as Hst1.
  { unfold st1, _parse_xml_table. by rewrite Hfail. }
  split; [exact Hst1|]. split.
  - intros good t Hgood. unfold _parse_xml_table. by rewrite Hgood.
  - intros failed' ex' Hfail'. unfold _parse_xml_table. by rewrite Hfail'.
Qed.

Lemma parse_xml_table_keeps_latest_failure_witness :
  let failed := {| content := "<html>502</html>" |} in
  let good := {| content := "observations.mv_hst_fdw" |} in
  let st1 := (_parse_xml_table sample_svc failed fresh_client).2 in
  _parse_xml_table sample_svc good st1 = (Ok sample_hst_table, st1) /\
  self_response st1 = Some failed.
Proof.
  intros failed good st1.
  destruct (parse_xml_table_keeps_latest_failure sample_svc failed
              (Exc CollaboratorError [ObjStr "no VOTABLE in the body"] None)
              fresh_client eq_refl) as (Hst1 & Hgood & _).
  split.
  - apply Hgood. reflexivity.
  - unfold st1. by rewrite Hst1.
Defined.

(** On the sample deployment the query for hst and Planck stores HST alone,
    and [get_maps] with the same selector downloads HST. *)
Lemma region_query_feeds_get_maps_witness :
  let m : gmap string MissionResult := {[ "HST" := MTable sample_hst_table ]} in
  let maps : gmap string (gmap string Product) :=
    {[ "HST" := sample_hst_products ]} in
  query_region_maps sample_py sample_svc (PosStr "m101") (RadStr "0 arcmin")
    (SelList ["hst"; "Planck"]) false fresh_client
  = (Ok (PyTableList m), fresh_client) /\
  forall key, key ∈ dom maps <-> key ∈ dom m /\ lower key <> INTEGRAL_STRING.
Proof.
  intros m maps.
  assert (query_region_maps sample_py sample_svc (PosStr "m101")
            (RadStr "0 arcmin") (SelList ["hst"; "Planck"]) false fresh_client
          = (Ok (PyTableList m), fresh_client)) as Hquery
    by (vm_compute; reflexivity).
  split; [exact Hquery|].
  pose (run := get_maps sample_py sample_svc sample_net
                 (TLTables [("HST", sample_hst_table)])
                 (SelList ["hst"; "Planck"]) "Maps" fresh_world).
  assert (run = (Ok maps, run.2)) as Hget by (vm_compute; reflexivity).
  apply (region_query_feeds_get_maps sample_py sample_svc sample_net
           (PosStr "m101") (RadStr "0 arcmin") (SelList ["hst"; "Planck"])
           fresh_client m fresh_client [("HST", sample_hst_table)] "Maps"
           fresh_world maps run.2);
    [|exact Hquery| |exact Hget].
  - intros missions st1 [= <- _] x
      [->|[->|[]%not_elem_of_nil]%elem_of_cons]%elem_of_cons; reflexivity.
  - intros key. unfold m. rewrite dom_singleton_L, elem_of_singleton. simpl.
    rewrite elem_of_cons. split; [intros [->|[]%not_elem_of_nil]; done|].
    intros ->. by left.
Defined.

(** ** From the registry to the request *)

Lemma mission_payload_of_entry {Coord Quantity} (py : Unicode)
    (svc : Services Coord Quantity) kind build coordinates radius
    (pre post : list MissionJson) (entry : MissionJson)
    (mission_name query : string) :
  fetch_json svc (URLbase svc +:+ "/" +:+ kind) kind
    = Ok (pre ++ entry :: post) ->
  (forall x, x ∈ pre ->
     str_lower py (mission x) <> str_lower py mission_name) ->
  str_lower py (mission entry) = str_lower py mission_name ->
  NoDup (tapTable <$> pre ++ entry :: post) ->
  build coordinates radius entry = Ok query ->
  mission_payload py svc kind build coordinates radius mission_name
  = Ok (_create_request_payload query).
Proof.
  intros Hfetch Hpre Hentry Hnd Hbuild. unfold mission_payload.
  rewrite Hfetch. simpl. unfold _find_mission_tap_table_name.
  rewrite (find_tap_table_from_first py pre post entry mission_name Hpre
             Hentry).
  simpl.
  assert (entry ∈ pre ++ entry :: post) as Hin.
  { apply elem_of_app; right. by apply elem_of_cons; left. }
  destruct (find_parameters_present _ _ Hin) as (found & Hfound).
  unfold _find_mission_parameters_in_json. rewrite Hfound. simpl.
  apply find_parameters_from_found in Hfound as [Hfin Htap].
  rewrite (NoDup_fmap_elem tapTable _ found entry Hnd Hfin Hin Htap).
  by rewrite Hbuild.
Qed.

(** X21. From the registry to the request: in a document whose entries have
    distinct TAP tables, the query for a mission name is built from the first
    entry whose name has the lower-cased form of that name, as [str.lower]
    gives it. In payload-only mode the
    per-mission query returns the payload REQUEST=doQuery, LANG=ADQL,
    FORMAT=VOTABLE, QUERY=<that query> and leaves the client alone; otherwise
    it sends this payload to <base URL>/tap/sync with the configured timeout
    and the cache on, and returns the decoded table. *)
Theorem query_region_maps_of_entry {Coord Quantity} (py : Unicode)
    (svc : Services Coord Quantity) (coordinates : Coord)
    (radius : RadiusArg Quantity) (pre post : list MissionJson)
    (entry : MissionJson) (observation_name query : string) (st : Client) :
  fetch_json svc (URLbase svc +:+ "/" +:+ "observations") "observations"
    = Ok (pre ++ entry :: post) ->
  (forall x, x ∈ pre ->
     str_lower py (mission x) <> str_lower py observation_name) ->
  str_lower py (mission entry) = str_lower py observation_name ->
  NoDup (tapTable <$> pre ++ entry :: post) ->
  _build_observation_query svc coordinates radius entry = Ok query ->
  let payload := _create_request_payload query in
  payload !! "REQUEST" = Some "doQuery" /\
  payload !! "LANG" = Some "ADQL" /\
  payload !! "FORMAT" = Some "VOTABLE" /\
  payload !! "QUERY" = Some query /\
  _query_region_maps py svc coordinates radius observation_name true st
    = (Ok (MPayload payload), st) /\
  (forall response table,
     request_get svc (URLbase svc +:+ "/tap/sync") payload (TIMEOUT svc) true
       = Ok response ->
     votable_to_table svc (content response) = Ok table ->
     _query_region_maps py svc coordinates radius observation_name false st
       = (Ok (MTable table), st)).
Proof.
  intros Hfetch Hpre Hentry Hnd Hbuild payload.
  pose proof (mission_payload_of_entry py svc OBSERVATIONS_STRING
                (_build_observation_query svc) coordinates radius pre post
                entry observation_name query Hfetch Hpre Hentry Hnd Hbuild)
    as Hpayload.
  repeat (split; [reflexivity|]). split.
  - by rewrite query_region_maps_run, Hpayload.
  - intros response table Hget Htable.
    rewrite query_region_maps_run, Hpayload.
    unfold bind, _get_and_parse_from_tap, bind, _send_get_request, lift.
    fold payload. rewrite Hget.
    by rewrite (parse_xml_table_success svc response table st Htable).
Qed.

Lemma query_region_maps_of_entry_witness :
  _query_region_maps sample_py sample_svc tt (RadStr "0 arcmin") "PLANCK" true
    fresh_client
  = (Ok (MPayload
           (_create_request_payload
              ("SELECT DISTINCT observation_id"
                 +:+ " FROM observations.mv_planck_fdw"
                 +:+ " WHERE 1=CONTAINS(pos, CIRCLE('ICRS', 150.000000,"
                 +:+ " 41.500000, 0.000000));"))), fresh_client).
Proof.
  apply (query_region_maps_of_entry sample_py sample_svc tt
           (RadStr "0 arcmin") [sample_hst] [] sample_planck "PLANCK").
  - reflexivity.
  - intros x [->|[]%not_elem_of_nil]%elem_of_cons. discriminate.
  - reflexivity.
  - apply NoDup_cons. split.
    + intros [H|[]%not_elem_of_nil]%elem_of_cons. discriminate H.
    + apply NoDup_cons. split; [apply not_elem_of_nil | apply NoDup_nil_2].
  - reflexivity.
Defined.
